(** * TodoForge: the in-memory store and the REST router

  A shallow embedding of [server/storage.ts] (class [MemStorage]),
  [shared/schema.ts] (the [todos] table and [insertTodoSchema]) and of the
  route handlers registered by [registerRoutes], followed by the properties
  of the specification that concern them. *)

From Stdlib Require Import List String ZArith Lia Bool Permutation Sorted.
Import ListNotations.

Local Open Scope string_scope.
Local Open Scope Z_scope.

Set Implicit Arguments.
Set Warnings "-register-all".

(* ===================================================================== *)
(** * JavaScript [Map<string, V>]

  A JavaScript [Map] remembers insertion order: [values()] iterates in the
  order in which the keys were first [set]; [set] on a key that is present
  replaces the value and keeps the position; [delete] reports whether an
  entry was removed.  The order matters for [getTodos], which sorts the
  values with a stable sort, so the map is an association list kept in
  insertion order. *)

Module JsMap.

Section Ops.
Variable V : Type.

Definition t := list (string * V).

Definition empty : t := [].

Fixpoint get (k : string) (m : t) : option V :=
  match m with
  | [] => None
  | (k', v) :: m' => if String.eqb k k' then Some v else get k m'
  end.

Definition has (k : string) (m : t) : bool :=
  match get k m with Some _ => true | None => false end.

Fixpoint set (k : string) (v : V) (m : t) : t :=
  match m with
  | [] => [(k, v)]
  | (k', v') :: m' =>
      if String.eqb k k' then (k, v) :: m' else (k', v') :: set k v m'
  end.

(** [remove] is the map left by [Map.prototype.delete]: the entry under
    the key is dropped (keys are unique in a [Map], so there is at most
    one) and the others keep their order.  [delete] pairs it with the
    boolean that the method returns. *)
Definition remove (k : string) (m : t) : t :=
  filter (fun kv => negb (String.eqb k (fst kv))) m.

Definition delete (k : string) (m : t) : bool * t :=
  (has k m, remove k m).

Definition keys (m : t) : list string := map fst m.
Definition values (m : t) : list V := map snd m.
Definition size (m : t) : nat := List.length m.
End Ops.

Arguments empty {V}.

End JsMap.

(* ===================================================================== *)
(** * The data model of [shared/schema.ts] *)

(** [Todo = typeof todos.$inferSelect].  [createdAt] is a [Date], kept as its
  time value (milliseconds since the epoch, what [getTime()] returns).
  The declared type of [completed] is [boolean], but the object built by
  [MemStorage.createTodo] is a spread of the validated request data, in
  which the property can be missing: [None] is "property absent" (it reads
  as [undefined] and is left out of the JSON response). *)
Module Todo.
Record t := mk
  { id : string;
    text : string;
    completed : option bool;
    createdAt : Z }.
End Todo.

(** [InsertTodo = z.infer<typeof insertTodoSchema>]: [text] is required,
  [completed] is optional (the column has a default). *)
Module InsertTodo.
Record t := mk
  { text : string;
    completed : option bool }.
End InsertTodo.

(** [Partial<InsertTodo>]: every property may be absent. *)
Module PartialInsertTodo.
Record t := mk
  { text : option string;
    completed : option bool }.
End PartialInsertTodo.

(* ===================================================================== *)
(** * [MemStorage] of [server/storage.ts] *)

(** The [todos] map, and the number of [createTodo] calls served so far,
  which indexes the two things [createTodo] reads from its environment
  ([crypto.randomUUID()] and the clock behind [new Date()]).  The [users]
  map is never touched by the todo operations and is left out. *)
Record MemStorage := mkMemStorage
  { todos : JsMap.t Todo.t;
    creations : nat }.

(** [new MemStorage()] *)
Definition newMemStorage : MemStorage :=
  {| todos := JsMap.empty; creations := 0%nat |}.

(** ** [Array.prototype.sort] with a comparator

  The sort is stable (ECMAScript 2019); with a consistent comparator the
  result of a stable sort is determined, whatever the engine's algorithm,
  so it is given here as a stable insertion sort: an element goes in front
  of the first element of the sorted tail that it does not compare greater
  than. *)
Section ArraySort.
Variable A : Type.
Variable compareFn : A -> A -> Z.

Fixpoint sort_insert (x : A) (l : list A) : list A :=
  match l with
  | [] => [x]
  | y :: l' => if compareFn x y <=? 0 then x :: y :: l'
               else y :: sort_insert x l'
  end.

Fixpoint sort (l : list A) : list A :=
  match l with
  | [] => []
  | x :: l' => sort_insert x (sort l')
  end.
End ArraySort.

(** The comparator of [getTodos]:
  [(a, b) => new Date(b.createdAt).getTime() - new Date(a.createdAt).getTime()] *)
Definition byCreatedAtDesc (a b : Todo.t) : Z :=
  Todo.createdAt b - Todo.createdAt a.

Section Store.
(** [randomUUID k] is the identifier returned to the [k]-th [createTodo],
    [Date_now k] the time value of the [Date] it constructs. *)
Variable randomUUID : nat -> string.
Variable Date_now : nat -> Z.

Definition getTodos (s : MemStorage) : list Todo.t :=
  sort byCreatedAtDesc (JsMap.values (todos s)).

Definition getTodo (id : string) (s : MemStorage) : option Todo.t :=
  JsMap.get id (todos s).

(** [{ ...insertTodo, id, createdAt: new Date() }] *)
Definition createTodo (insertTodo : InsertTodo.t) (s : MemStorage)
  : Todo.t * MemStorage :=
  let id := randomUUID (creations s) in
  let todo :=
    {| Todo.id := id;
       Todo.text := InsertTodo.text insertTodo;
       Todo.completed := InsertTodo.completed insertTodo;
       Todo.createdAt := Date_now (creations s) |} in
  (todo, {| todos := JsMap.set id todo (todos s);
            creations := S (creations s) |}).

(** [{ ...existingTodo, ...updates }] *)
Definition spread_updates (existingTodo : Todo.t)
    (updates : PartialInsertTodo.t) : Todo.t :=
  {| Todo.id := Todo.id existingTodo;
     Todo.text :=
       match PartialInsertTodo.text updates with
       | Some x => x
       | None => Todo.text existingTodo
       end;
     Todo.completed :=
       match PartialInsertTodo.completed updates with
       | Some b => Some b
       | None => Todo.completed existingTodo
       end;
     Todo.createdAt := Todo.createdAt existingTodo |}.

Definition updateTodo (id : string) (updates : PartialInsertTodo.t)
    (s : MemStorage) : option Todo.t * MemStorage :=
  match JsMap.get id (todos s) with
  | None => (None, s)
  | Some existingTodo =>
      let updatedTodo := spread_updates existingTodo updates in
      (Some updatedTodo,
       {| todos := JsMap.set id updatedTodo (todos s);
          creations := creations s |})
  end.

Definition deleteTodo (id : string) (s : MemStorage) : bool * MemStorage :=
  let (deleted, m) := JsMap.delete id (todos s) in
  (deleted, {| todos := m; creations := creations s |}).

(** ** The states a store can be in

    A store starts as [new MemStorage()] and changes only through its three
    mutating methods. *)
Inductive StoreOp :=
| OpCreate (insertTodo : InsertTodo.t)
| OpUpdate (id : string) (updates : PartialInsertTodo.t)
| OpDelete (id : string).

Definition apply_op (op : StoreOp) (s : MemStorage) : MemStorage :=
  match op with
  | OpCreate insertTodo => snd (createTodo insertTodo s)
  | OpUpdate id updates => snd (updateTodo id updates s)
  | OpDelete id => snd (deleteTodo id s)
  end.

Inductive reachable : MemStorage -> Prop :=
| reachable_new : reachable newMemStorage
| reachable_op : forall s op, reachable s -> reachable (apply_op op s).

End Store.

(* ===================================================================== *)
(** * Request bodies and the validation schemas *)

(** The value [express.json()] leaves in [req.body]: the result of
    [JSON.parse].  An object is the list of its properties; a property read
    [data[key]] finds the entry with that key or yields [undefined], which is
    [None] below. *)
Inductive json :=
| JNull
| JBool (b : bool)
| JNumber (n : Z)
| JString (s : string)
| JArray (items : list json)
| JObject (properties : list (string * json)).

Fixpoint property (key : string) (o : list (string * json)) : option json :=
  match o with
  | [] => None
  | (k, v) :: o' => if String.eqb key k then Some v else property key o'
  end.

(** ** The part of zod that the two schemas use *)

Inductive ZodParsedType :=
| zt_string | zt_number | zt_boolean | zt_null | zt_undefined
| zt_array | zt_object.

Definition getParsedType (data : option json) : ZodParsedType :=
  match data with
  | None => zt_undefined
  | Some JNull => zt_null
  | Some (JBool _) => zt_boolean
  | Some (JNumber _) => zt_number
  | Some (JString _) => zt_string
  | Some (JArray _) => zt_array
  | Some (JObject _) => zt_object
  end.

(** Every issue these schemas can raise has code [invalid_type]. *)
Record ZodIssue := invalid_type
  { expected : ZodParsedType;
    received : ZodParsedType;
    path : list string }.

(** The outcome of [schema.parse(data)]: the parsed value, or the issues of
    the [ZodError] that is thrown. *)
Inductive ZodResult (A : Type) :=
| ParseOk (value : A)
| ZodError (errors : list ZodIssue).

Arguments ParseOk {A} value.
Arguments ZodError {A} errors.

Definition issues_of {A : Type} (r : ZodResult A) : list ZodIssue :=
  match r with
  | ParseOk _ => []
  | ZodError errors => errors
  end.

(** A schema parses the value found at [path]. *)
Definition ZodType (A : Type) := list string -> option json -> ZodResult A.

(** [z.string()]: any string, the empty one included; the schema carries no
    [.min(1)]. *)
Definition z_string : ZodType string :=
  fun path data =>
    match data with
    | Some (JString s) => ParseOk s
    | _ => ZodError [invalid_type zt_string (getParsedType data) path]
    end.

(** [z.boolean()] *)
Definition z_boolean : ZodType bool :=
  fun path data =>
    match data with
    | Some (JBool b) => ParseOk b
    | _ => ZodError [invalid_type zt_boolean (getParsedType data) path]
    end.

(** [schema.optional()]: [undefined] is accepted and stays [undefined]. *)
Definition z_optional {A : Type} (schema : ZodType A) : ZodType (option A) :=
  fun path data =>
    match data with
    | None => ParseOk None
    | Some _ =>
        match schema path data with
        | ParseOk a => ParseOk (Some a)
        | ZodError errors => ZodError errors
        end
    end.

(** [z.object({ k1: t1, k2: t2 })] in its default mode: the input must be an
    object, each property of the shape is parsed under the path extended by
    its key, the issues of all properties are collected in shape order, and
    properties outside the shape are dropped from the result. *)
Definition z_object2 {A B C : Type} (build : A -> B -> C)
    (k1 : string) (t1 : ZodType A) (k2 : string) (t2 : ZodType B)
  : ZodType C :=
  fun path data =>
    match data with
    | Some (JObject o) =>
        match t1 (path ++ [k1])%list (property k1 o),
              t2 (path ++ [k2])%list (property k2 o) with
        | ParseOk a, ParseOk b => ParseOk (build a b)
        | r1, r2 => ZodError (issues_of r1 ++ issues_of r2)%list
        end
    | _ => ZodError [invalid_type zt_object (getParsedType data) path]
    end.

(** ** The schemas of the application

    [createInsertSchema(todos)] gives every column of the table a property:
    a [notNull] column without default is required, a [notNull] column with
    a default is [.optional()].  [.omit({ id, createdAt })] removes those
    two, which leaves

      [text]       [text("text").notNull()]                         [z.string()]
      [completed]  [boolean("completed").notNull().default(false)]  [z.boolean().optional()]

    The column default is a database default: the schema does not fill it
    in. *)
Definition insertTodoSchema : ZodType InsertTodo.t :=
  z_object2 InsertTodo.mk "text" z_string "completed" (z_optional z_boolean).

(** [insertTodoSchema.partial()]: every property of the shape becomes
    optional (a second [.optional()] on [completed] changes nothing). *)
Definition insertTodoSchema_partial : ZodType PartialInsertTodo.t :=
  z_object2 PartialInsertTodo.mk
    "text" (z_optional z_string) "completed" (z_optional z_boolean).

(** [schema.parse(req.body)] *)
Definition parse {A : Type} (schema : ZodType A) (body : json) : ZodResult A :=
  schema [] (Some body).

(* ===================================================================== *)
(** * The routes of [registerRoutes] *)

(** What a handler sends: [res.json(todos)], [res.json(todo)],
    [res.json({ message, errors })] (the error body, [errors] present only
    for validation failures) or [res.send()] with no body. *)
Inductive ResBody :=
| JsonTodos (todos : list Todo.t)
| JsonTodo (todo : Todo.t)
| JsonMessage (message : string) (errors : option (list ZodIssue))
| EmptyBody.

Record Response := mkResponse
  { status : nat;
    body : ResBody }.

Arguments mkResponse status%_nat body.

(** The calls a handler makes on [storage], in order. *)
Inductive StoreCall :=
| call_getTodos
| call_getTodo (id : string)
| call_createTodo (insertTodo : InsertTodo.t)
| call_updateTodo (id : string) (updates : PartialInsertTodo.t)
| call_deleteTodo (id : string).

(** The result of handling one request: the response, the store afterwards
    and the store calls that were made. *)
Record Handled := mkHandled
  { response : Response;
    storage : MemStorage;
    calls : list StoreCall }.

(** A request, once matched to its route: the [:id] parameter and the parsed
    body where the route has them. *)
Inductive Request :=
| GET_todos
| GET_todos_id (id : string)
| POST_todos (body : json)
| PATCH_todos_id (id : string) (body : json)
| DELETE_todos_id (id : string).

Section Routes.
Variable randomUUID : nat -> string.
Variable Date_now : nat -> Z.

(** The methods of [MemStorage] do not throw, and [parse] throws only a
    [ZodError], so the [catch] branches that answer 500 are never taken and
    do not appear below.  [res.json] without [res.status] answers 200. *)

(** [app.get("/api/todos", ...)] *)
Definition get_todos (s : MemStorage) : Handled :=
  let todos := getTodos s in
  mkHandled (mkResponse 200 (JsonTodos todos)) s [call_getTodos].

(** [app.get("/api/todos/:id", ...)] *)
Definition get_todos_id (id : string) (s : MemStorage) : Handled :=
  match getTodo id s with
  | None =>
      mkHandled (mkResponse 404 (JsonMessage "Todo not found" None))
        s [call_getTodo id]
  | Some todo =>
      mkHandled (mkResponse 200 (JsonTodo todo)) s [call_getTodo id]
  end.

(** [app.post("/api/todos", ...)] *)
Definition post_todos (body : json) (s : MemStorage) : Handled :=
  match parse insertTodoSchema body with
  | ParseOk validatedData =>
      let (todo, s') := createTodo randomUUID Date_now validatedData s in
      mkHandled (mkResponse 201 (JsonTodo todo)) s'
        [call_createTodo validatedData]
  | ZodError errors =>
      mkHandled
        (mkResponse 400 (JsonMessage "Invalid todo data" (Some errors)))
        s []
  end.

(** [app.patch("/api/todos/:id", ...)] *)
Definition patch_todos_id (id : string) (body : json) (s : MemStorage)
  : Handled :=
  match parse insertTodoSchema_partial body with
  | ParseOk updates =>
      match updateTodo id updates s with
      | (None, s') =>
          mkHandled (mkResponse 404 (JsonMessage "Todo not found" None))
            s' [call_updateTodo id updates]
      | (Some updatedTodo, s') =>
          mkHandled (mkResponse 200 (JsonTodo updatedTodo))
            s' [call_updateTodo id updates]
      end
  | ZodError errors =>
      mkHandled
        (mkResponse 400 (JsonMessage "Invalid update data" (Some errors)))
        s []
  end.

(** [app.delete("/api/todos/:id", ...)] *)
Definition delete_todos_id (id : string) (s : MemStorage) : Handled :=
  match deleteTodo id s with
  | (false, s') =>
      mkHandled (mkResponse 404 (JsonMessage "Todo not found" None))
        s' [call_deleteTodo id]
  | (true, s') =>
      mkHandled (mkResponse 204 EmptyBody) s' [call_deleteTodo id]
  end.

Definition registerRoutes (req : Request) (s : MemStorage) : Handled :=
  match req with
  | GET_todos => get_todos s
  | GET_todos_id id => get_todos_id id s
  | POST_todos body => post_todos body s
  | PATCH_todos_id id body => patch_todos_id id body s
  | DELETE_todos_id id => delete_todos_id id s
  end.

End Routes.

(** The Task a handler sends, when the body of its response is one. *)
Definition ResBody_todo (r : Handled) : option Todo.t :=
  match body (response r) with
  | JsonTodo todo => Some todo
  | _ => None
  end.

(** The list that [GET /api/todos] sends for a store. *)
Definition body_of_get_todos (s : MemStorage) : list Todo.t :=
  match body (response (get_todos s)) with
  | JsonTodos todos => todos
  | _ => []
  end.

(** A Task is in the store: some entry of the map holds it. *)
Definition getTodo_in_store (todo : Todo.t) (s : MemStorage) : Prop :=
  exists key, In (key, todo) (todos s).

(** The validation errors of a response, and whether one of them points at
    a given property of the body. *)
Definition validation_errors (r : Response) : list ZodIssue :=
  match body r with
  | JsonMessage _ (Some errors) => errors
  | _ => []
  end.

Definition references (key : string) (r : Response) : Prop :=
  exists issue, In issue (validation_errors r) /\ path issue = [key].

(* ===================================================================== *)
(** * A concrete environment, for examples

    Identifiers [u], [uu], [uuu], ... (pairwise distinct) and a clock that
    advances by one second per creation. *)
Fixpoint example_uuid (k : nat) : string :=
  match k with
  | O => "u"
  | S k' => "u" ++ example_uuid k'
  end.

Definition example_clock (k : nat) : Z := 1700000000000 + 1000 * Z.of_nat k.


(** ** Predicates used in the statements *)

(** Every entry of the map holds, under its key, a record whose [id] is
    that key, and no key occurs twice. *)
Definition key_consistent (m : JsMap.t Todo.t) : Prop :=
  NoDup (JsMap.keys m) /\
  Forall (fun kv => Todo.id (snd kv) = fst kv) m.

(** Every key of the map was handed out by one of the creations so far. *)
Definition issued (randomUUID : nat -> string) (s : MemStorage) : Prop :=
  forall k, In k (JsMap.keys (todos s)) ->
    exists i, (i < creations s)%nat /\ k = randomUUID i.

(** Most recently created first. *)
Definition newer_or_equal (a b : Todo.t) : Prop :=
  Todo.createdAt b <= Todo.createdAt a.

Definition strictly_newer (a b : Todo.t) : Prop :=
  Todo.createdAt b < Todo.createdAt a.

(** The three tasks of the ordering example, put in the store oldest last
    so that the sort has work to do. *)
Definition example_task (id : string) (t : Z) : Todo.t :=
  {| Todo.id := id; Todo.text := "task"; Todo.completed := Some false;
     Todo.createdAt := t |}.

Definition example_store : MemStorage :=
  {| todos := [("b", example_task "b" 20); ("c", example_task "c" 30);
               ("a", example_task "a" 10)];
     creations := 3%nat |}.

(** The store after one creation from the empty store, and after that
    Task has been completed, in the example environment. *)
Definition example_created : MemStorage :=
  apply_op example_uuid example_clock
    (OpCreate (InsertTodo.mk "Buy milk" None)) newMemStorage.

Definition example_completed : MemStorage :=
  apply_op example_uuid example_clock
    (OpUpdate "u" (PartialInsertTodo.mk None (Some true))) example_created.

(** The request bodies [{}] and [{text: ""}]. *)
Definition body_empty_object : json := JObject [].
Definition body_empty_text : json := JObject [("text", JString "")].

(* ===================================================================== *)
(** * The user methods of [MemStorage]

    Users are untyped ([any]).  A user is taken to be a plain object, given
    by its properties in insertion order, so that the spread
    [{ ...insertUser, id }] is a [set] of the property [id]: the value is
    replaced where the property exists and appended where it does not.  The
    methods touch only the [users] map, which is passed explicitly, and
    [createUser] receives the identifier that [randomUUID()] returned. *)

Definition JsObject := list (string * json).

Definition getUser (id : string) (users : JsMap.t JsObject)
  : option JsObject :=
  JsMap.get id users.

(** [user.username === username] *)
Definition username_is (username : string) (user : JsObject) : bool :=
  match property "username" user with
  | Some (JString u) => String.eqb u username
  | _ => false
  end.

(** [Array.from(this.users.values()).find(...)] *)
Definition getUserByUsername (username : string) (users : JsMap.t JsObject)
  : option JsObject :=
  List.find (username_is username) (JsMap.values users).

Definition createUser (id : string) (insertUser : JsObject)
    (users : JsMap.t JsObject) : JsObject * JsMap.t JsObject :=
  let user := JsMap.set "id" (JString id) insertUser in
  (user, JsMap.set id user users).

(* ===================================================================== *)
(** * Sequences of store operations and merged updates *)

(** The store after a sequence of mutating calls, first call first. *)
Definition run (randomUUID : nat -> string) (Date_now : nat -> Z)
    (ops : list StoreOp) (s : MemStorage) : MemStorage :=
  fold_left (fun s' op => apply_op randomUUID Date_now op s') ops s.

(** [{ ...first, ...second }] on two partial inputs. *)
Definition merge_updates (first second : PartialInsertTodo.t)
  : PartialInsertTodo.t :=
  {| PartialInsertTodo.text :=
       match PartialInsertTodo.text second with
       | Some x => Some x
       | None => PartialInsertTodo.text first
       end;
     PartialInsertTodo.completed :=
       match PartialInsertTodo.completed second with
       | Some b => Some b
       | None => PartialInsertTodo.completed first
       end |}.

(** Two Tasks with the same [id] and the same [createdAt]. *)
Definition same_identity (a b : Todo.t) : Prop :=
  Todo.id a = Todo.id b /\ Todo.createdAt a = Todo.createdAt b.

(* ===================================================================== *)
(** * The page component ([Home]): what it computes from its state

    The component receives the Tasks as the JSON the routes send, so
    [completed] can be absent there too; a condition on [todo.completed]
    tests its truthiness, and an absent property is falsy. *)

Definition truthy (completed : option bool) : bool :=
  match completed with
  | Some true => true
  | _ => false
  end.

(** [type FilterType = "all" | "active" | "completed"] *)
Inductive FilterType := filter_all | filter_active | filter_completed.

(** [todos.filter((todo) => { ... })] *)
Definition filteredTodos (filter : FilterType) (todos : list Todo.t)
  : list Todo.t :=
  List.filter
    (fun todo =>
       match filter with
       | filter_active => negb (truthy (Todo.completed todo))
       | filter_completed => truthy (Todo.completed todo)
       | filter_all => true
       end)
    todos.

Definition totalTodos (todos : list Todo.t) : Z :=
  Z.of_nat (List.length todos).

Definition completedTodos (todos : list Todo.t) : Z :=
  Z.of_nat
    (List.length (List.filter (fun todo => truthy (Todo.completed todo)) todos)).

Definition activeTodos (todos : list Todo.t) : Z :=
  totalTodos todos - completedTodos todos.

(** ** [String.prototype.trim]

    A string stands for the text it holds in UTF-8, byte by byte.  [trim]
    removes the white space and line terminator characters at both ends.
    Each of them is one UTF-16 code unit in JavaScript and a sequence of
    one to three bytes here, so the functions below remove such byte
    sequences.  [isWhiteSpace] tells which sequences encode a character
    that [trim] removes; the set of JavaScript is [whiteSpace] below.
    UTF-8 is prefix-free and its continuation bytes cannot start a
    character, so a string begins (ends) with the encoding of a character
    exactly when that character is its first (last) one.  (A string with
    an unpaired surrogate has no UTF-8 form; none of the characters that
    [trim] removes is a surrogate.) *)
Section Trim.
Variable isWhiteSpace : string -> bool.

Fixpoint trimStart (s : string) : string :=
  match s with
  | EmptyString => EmptyString
  | String c1 s1 =>
      if isWhiteSpace (String c1 EmptyString) then trimStart s1
      else
        match s1 with
        | EmptyString => s
        | String c2 s2 =>
            if isWhiteSpace (String c1 (String c2 EmptyString))
            then trimStart s2
            else
              match s2 with
              | EmptyString => s
              | String c3 s3 =>
                  if isWhiteSpace
                       (String c1 (String c2 (String c3 EmptyString)))
                  then trimStart s3
                  else s
              end
        end
  end.

(** Once the white space after it is removed, a character is the last one,
    and it is removed as well when it (with the bytes that continue it) is
    white space. *)
Fixpoint trimEnd (s : string) : string :=
  match s with
  | EmptyString => EmptyString
  | String c s' =>
      let rest := String c (trimEnd s') in
      if isWhiteSpace rest then EmptyString else rest
  end.

Definition trim (s : string) : string := trimEnd (trimStart s).

(** A string made of white space characters only (the empty string
    included). *)
Inductive WhiteSpaceOnly : string -> Prop :=
| WhiteSpaceOnly_empty : WhiteSpaceOnly EmptyString
| WhiteSpaceOnly_more : forall t s,
    isWhiteSpace t = true -> WhiteSpaceOnly s -> WhiteSpaceOnly (t ++ s).

(** What the functions above rely on: a white space character is one, two
    or three bytes long, and the first byte, or the first two bytes, of a
    longer one are not a white space character themselves. *)
Definition token_discipline : Prop :=
  forall t, isWhiteSpace t = true ->
    (exists c1, t = String c1 EmptyString) \/
    (exists c1 c2,
       t = String c1 (String c2 EmptyString) /\
       isWhiteSpace (String c1 EmptyString) = false) \/
    (exists c1 c2 c3,
       t = String c1 (String c2 (String c3 EmptyString)) /\
       isWhiteSpace (String c1 EmptyString) = false /\
       isWhiteSpace (String c1 (String c2 EmptyString)) = false).

(** [handleCreateTodo]: the argument given to [createTodoMutation.mutate],
    or [None] when the handler returns before calling it. *)
Definition handleCreateTodo (newTodoText : string) : option InsertTodo.t :=
  if String.eqb (trim newTodoText) "" then None
  else Some (InsertTodo.mk (trim newTodoText) (Some false)).

(** [handleSaveEdit]: the [id] and the [updates] given to
    [updateTodoMutation.mutate], or [None] when the handler returns before
    calling it.  [editingId] is [string | null]; [null] and the empty
    string are both falsy. *)
Definition handleSaveEdit (editText : string) (editingId : option string)
  : option (string * PartialInsertTodo.t) :=
  match editingId with
  | None => None
  | Some id =>
      if String.eqb (trim editText) "" || String.eqb id "" then None
      else Some (id, PartialInsertTodo.mk (Some (trim editText)) None)
  end.
End Trim.

(** [handleToggleComplete]: the [id] and the [updates] given to
    [updateTodoMutation.mutate]. *)
Definition handleToggleComplete (todo : Todo.t)
  : string * PartialInsertTodo.t :=
  (Todo.id todo,
   PartialInsertTodo.mk None (Some (negb (truthy (Todo.completed todo))))).

(** ** [formatDate]

    [date] and the clock reading [now] are time values in milliseconds.
    [Math.floor(diffTime / (1000 * 60 * 60 * 24))] is the floor of the
    quotient, which is what [/] on [Z] computes: time values are integers,
    and as long as their difference is below 2^53 in magnitude (two dates
    less than 285 000 years apart) the floating-point quotient has the
    same floor as the exact one.  The two locale-dependent renderings are
    kept as constructors. *)
Inductive FormattedDate :=
| LocaleTimeString (date : Z)
| Yesterday
| LocaleDateString (date : Z).

Definition formatDate (now date : Z) : FormattedDate :=
  let diffTime := now - date in
  let diffDays := diffTime / (1000 * 60 * 60 * 24) in
  if diffDays =? 0 then LocaleTimeString date
  else if diffDays =? 1 then Yesterday
  else LocaleDateString date.

(** The string with the given bytes. *)
Definition bytes (codes : list nat) : string :=
  string_of_list_ascii (map Ascii.ascii_of_nat codes).

(** The characters that [trim] removes, in UTF-8: the WhiteSpace and
    LineTerminator productions of ECMAScript.  U+0009 to U+000D, U+0020,
    U+00A0, U+1680, U+2000 to U+200A, U+2028, U+2029, U+202F, U+205F,
    U+3000 and U+FEFF. *)
Definition whiteSpaceCodes : list (list nat) :=
  [[9]; [10]; [11]; [12]; [13]; [32];
   [194; 160];
   [225; 154; 128];
   [226; 128; 128]; [226; 128; 129]; [226; 128; 130]; [226; 128; 131];
   [226; 128; 132]; [226; 128; 133]; [226; 128; 134]; [226; 128; 135];
   [226; 128; 136]; [226; 128; 137]; [226; 128; 138];
   [226; 128; 168]; [226; 128; 169]; [226; 128; 175];
   [226; 129; 159];
   [227; 128; 128];
   [239; 187; 191]]%nat.

Definition whiteSpace (t : string) : bool :=
  existsb (String.eqb t) (map bytes whiteSpaceCodes).

(** An input of the form: an ideographic space (U+3000), two spaces, the
    text, a no-break space (U+00A0) and a line feed. *)
Definition example_input : string :=
  bytes [227; 128; 128; 32; 32]%nat ++ "Buy milk" ++ bytes [194; 160; 10]%nat.

(** A generator that returns the same identifier every time, and the store
    after one creation with it. *)
Definition constant_uuid (_ : nat) : string := "same".

Definition example_collided : MemStorage :=
  apply_op constant_uuid example_clock
    (OpCreate (InsertTodo.mk "first" None)) newMemStorage.

(** The store after two creations in the example environment. *)
Definition example_two : MemStorage :=
  apply_op example_uuid example_clock
    (OpCreate (InsertTodo.mk "Walk" (Some false))) example_created.

(** A user object for examples. *)
Definition example_user : JsObject :=
  [("username", JString "ada"); ("id", JString "chosen-by-client")].

(* ===================================================================== *)
(** * Facts about [JsMap] *)

Module JsMapFacts.
Import JsMap.

Section Facts.
Variable V : Type.
Implicit Types (m : t V) (k : string) (v : V).

Lemma get_set_eq k v m : get k (set k v m) = Some v.
Proof.
  induction m as [|[k' v'] m IH]; simpl.
  - now rewrite String.eqb_refl.
  - destruct (String.eqb k k') eqn:E; simpl; rewrite ?String.eqb_refl, ?E; auto.
Qed.

Lemma get_set_ne k k' v m : k <> k' -> get k' (set k v m) = get k' m.
Proof.
  intros Hne. induction m as [|[k0 v0] m IH]; simpl.
  - apply String.eqb_neq in Hne. rewrite String.eqb_sym. now rewrite Hne.
  - destruct (String.eqb k k0) eqn:E; simpl.
    + apply String.eqb_eq in E; subst k0.
      assert (String.eqb k' k = false) as ->
          by (apply String.eqb_neq; congruence).
      reflexivity.
    + now rewrite IH.
Qed.

Lemma set_same k v m : get k m = Some v -> set k v m = m.
Proof.
  induction m as [|[k' v'] m IH]; simpl; [discriminate|].
  destruct (String.eqb k k') eqn:E.
  - apply String.eqb_eq in E; subst. now intros [= ->].
  - intros H. now rewrite IH.
Qed.

Lemma get_remove_eq k m : get k (remove k m) = None.
Proof.
  induction m as [|[k' v'] m IH]; simpl; auto.
  destruct (String.eqb k k') eqn:E; simpl; rewrite ?E; auto.
Qed.

Lemma get_remove_ne k k' m : k <> k' -> get k' (remove k m) = get k' m.
Proof.
  intros Hne. induction m as [|[k0 v0] m IH]; simpl; auto.
  destruct (String.eqb k k0) eqn:E; simpl.
  - apply String.eqb_eq in E; subst k0.
    assert (String.eqb k' k = false) as ->
        by (apply String.eqb_neq; congruence).
    exact IH.
  - now rewrite IH.
Qed.

Lemma remove_absent k m : get k m = None -> remove k m = m.
Proof.
  induction m as [|[k' v'] m IH]; simpl; auto.
  destruct (String.eqb k k') eqn:E; simpl; [discriminate|].
  intros H. now rewrite IH.
Qed.

Lemma has_remove k m : has k (remove k m) = false.
Proof. unfold has. now rewrite get_remove_eq. Qed.

Lemma remove_remove k m : remove k (remove k m) = remove k m.
Proof. apply remove_absent, get_remove_eq. Qed.

Lemma get_None_iff k m : get k m = None <-> ~ In k (keys m).
Proof.
  induction m as [|[k' v'] m IH]; simpl; [tauto|].
  destruct (String.eqb_spec k k') as [->|Hne].
  - split; [discriminate | intros H; exfalso; apply H; now left].
  - rewrite IH. split; [intros H [E|E]; [congruence | tauto] | tauto].
Qed.

Lemma get_In k v m : get k m = Some v -> In (k, v) m.
Proof.
  induction m as [|[k' v'] m IH]; simpl; [discriminate|].
  destruct (String.eqb_spec k k') as [->|Hne].
  - intros [= ->]. now left.
  - intros H. right. auto.
Qed.

Lemma In_get k v m : NoDup (keys m) -> In (k, v) m -> get k m = Some v.
Proof.
  induction m as [|[k' v'] m IH]; simpl; [tauto|].
  intros Hnd [E|Hin]; inversion Hnd as [|? ? Hnotin Hnd']; subst.
  - injection E as -> ->. now rewrite String.eqb_refl.
  - destruct (String.eqb_spec k k') as [->|Hne].
    + exfalso. apply Hnotin. change (In (fst (k', v)) (map fst m)).
      now apply in_map.
    + auto.
Qed.

Lemma In_keys_set k k' v m :
  In k' (keys (set k v m)) <-> k' = k \/ In k' (keys m).
Proof.
  induction m as [|[k0 v0] m IH]; simpl.
  - intuition congruence.
  - destruct (String.eqb_spec k k0) as [->|Hne]; simpl.
    + intuition congruence.
    + rewrite IH. intuition congruence.
Qed.

Lemma NoDup_keys_set k v m : NoDup (keys m) -> NoDup (keys (set k v m)).
Proof.
  induction m as [|[k0 v0] m IH]; simpl; intros Hnd.
  - constructor; [tauto | constructor].
  - inversion Hnd as [|? ? Hnotin Hnd']; subst.
    destruct (String.eqb_spec k k0) as [->|Hne]; simpl.
    + now constructor.
    + constructor; [|now apply IH].
      change (~ In k0 (keys (set k v m))). rewrite In_keys_set.
      intros [E|E]; [congruence | tauto].
Qed.

Lemma In_remove kv k m : In kv (remove k m) <-> In kv m /\ fst kv <> k.
Proof.
  unfold remove. rewrite filter_In, negb_true_iff, String.eqb_neq.
  intuition congruence.
Qed.

Lemma In_keys_remove k k' m : In k' (keys (remove k m)) -> In k' (keys m).
Proof.
  unfold keys. rewrite !in_map_iff. intros [kv [E Hin]].
  apply In_remove in Hin. exists kv. tauto.
Qed.

Lemma NoDup_keys_remove k m : NoDup (keys m) -> NoDup (keys (remove k m)).
Proof.
  induction m as [|[k0 v0] m IH]; simpl; intros Hnd; [constructor|].
  inversion Hnd as [|? ? Hnotin Hnd']; subst.
  destruct (String.eqb k k0); simpl; [now apply IH|].
  constructor; [|now apply IH].
  intros Hin. apply Hnotin. eapply In_keys_remove. exact Hin.
Qed.

Lemma In_set kv k v m : In kv (set k v m) -> kv = (k, v) \/ In kv m.
Proof.
  induction m as [|[k0 v0] m IH]; simpl.
  - intros [E|[]]. now left.
  - destruct (String.eqb k k0); simpl; intros [E|Hin]; auto.
    destruct (IH Hin); auto.
Qed.

Lemma length_set_present k v v' m :
  get k m = Some v' -> List.length (set k v m) = List.length m.
Proof.
  induction m as [|[k0 v0] m IH]; simpl; [discriminate|].
  destruct (String.eqb k k0); simpl; auto.
Qed.

End Facts.
End JsMapFacts.

(* ===================================================================== *)
(** * Facts about the sort of [getTodos] *)

Section SortFacts.
Variable A : Type.
Variable compareFn : A -> A -> Z.

Lemma sort_insert_perm (x : A) (l : list A) :
  Permutation (sort_insert compareFn x l) (x :: l).
Proof.
  induction l as [|y l IH]; simpl; auto.
  destruct (compareFn x y <=? 0); auto.
  rewrite IH. apply perm_swap.
Qed.

Lemma sort_perm (l : list A) : Permutation (sort compareFn l) l.
Proof.
  induction l as [|x l IH]; simpl; auto.
  rewrite sort_insert_perm. now constructor.
Qed.

End SortFacts.

Lemma newer_or_equal_trans a b c :
  newer_or_equal a b -> newer_or_equal b c -> newer_or_equal a c.
Proof. unfold newer_or_equal. lia. Qed.

Lemma sort_insert_sorted x l :
  StronglySorted newer_or_equal l ->
  StronglySorted newer_or_equal (sort_insert byCreatedAtDesc x l).
Proof.
  induction l as [|y l IH]; simpl; intros Hs.
  - repeat constructor.
  - inversion Hs as [|? ? Hs' Hall]; subst.
    destruct (byCreatedAtDesc x y <=? 0) eqn:E.
    + apply Z.leb_le in E. unfold byCreatedAtDesc in E.
      assert (Hxy : newer_or_equal x y) by (unfold newer_or_equal; lia).
      constructor; [assumption|].
      constructor; [assumption|].
      eapply Forall_impl; [|exact Hall].
      intros z Hz. eapply newer_or_equal_trans; eassumption.
    + apply Z.leb_gt in E. unfold byCreatedAtDesc in E.
      constructor; [now apply IH|].
      eapply Permutation_Forall.
      * symmetry. apply sort_insert_perm.
      * constructor; [unfold newer_or_equal; lia | assumption].
Qed.

Lemma sort_sorted l : StronglySorted newer_or_equal (sort byCreatedAtDesc l).
Proof.
  induction l as [|x l IH]; simpl; [constructor|].
  now apply sort_insert_sorted.
Qed.

(** A list sorted newest first and a strictly sorted list with the same
    elements are the same list. *)
Lemma sorted_perm_unique l1 : forall l2,
  StronglySorted newer_or_equal l1 ->
  StronglySorted strictly_newer l2 ->
  Permutation l1 l2 -> l1 = l2.
Proof.
  induction l1 as [|x l1 IH]; intros l2 H1 H2 Hp.
  - apply Permutation_nil in Hp. now subst.
  - destruct l2 as [|y l2].
    + symmetry in Hp. apply Permutation_nil in Hp. discriminate.
    + inversion H1 as [|? ? H1' Hall1]; subst.
      inversion H2 as [|? ? H2' Hall2]; subst.
      assert (Hxy : x = y).
      { assert (Hx : In x (y :: l2))
          by (eapply Permutation_in; [exact Hp | now left]).
        assert (Hy : In y (x :: l1))
          by (eapply Permutation_in; [symmetry; exact Hp | now left]).
        destruct Hx as [Hx|Hx]; [now subst|].
        destruct Hy as [Hy|Hy]; [now subst|].
        rewrite Forall_forall in Hall1, Hall2.
        specialize (Hall1 _ Hy). specialize (Hall2 _ Hx).
        unfold newer_or_equal, strictly_newer in *. lia. }
      subst y. f_equal. apply IH; auto.
      eapply Permutation_cons_inv. exact Hp.
Qed.

(* ===================================================================== *)
(** * Invariants of the store *)

Section StoreFacts.
Variable randomUUID : nat -> string.
Variable Date_now : nat -> Z.

Import JsMap JsMapFacts.

Lemma key_consistent_set k v m :
  Todo.id v = k -> key_consistent m -> key_consistent (set k v m).
Proof.
  intros Hid [Hnd Hall]. split.
  - now apply NoDup_keys_set.
  - rewrite Forall_forall in *. intros kv Hin.
    apply In_set in Hin. destruct Hin as [->|Hin]; simpl; auto.
Qed.

Lemma key_consistent_remove k m :
  key_consistent m -> key_consistent (remove k m).
Proof.
  intros [Hnd Hall]. split.
  - now apply NoDup_keys_remove.
  - rewrite Forall_forall in *. intros kv Hin.
    apply In_remove in Hin. apply Hall. tauto.
Qed.

Lemma key_consistent_get k v m :
  key_consistent m -> get k m = Some v -> Todo.id v = k.
Proof.
  intros [_ Hall] Hget. apply get_In in Hget.
  rewrite Forall_forall in Hall. exact (Hall _ Hget).
Qed.

Lemma apply_op_key_consistent op s :
  key_consistent (todos s) ->
  key_consistent (todos (apply_op randomUUID Date_now op s)).
Proof.
  intros Hk. destruct op as [ins|id upd|id]; simpl.
  - now apply key_consistent_set.
  - unfold updateTodo. destruct (get id (todos s)) as [t|] eqn:E; simpl; auto.
    apply key_consistent_set; auto. simpl.
    eapply key_consistent_get; eassumption.
  - now apply key_consistent_remove.
Qed.

Lemma reachable_key_consistent s :
  reachable randomUUID Date_now s -> key_consistent (todos s).
Proof.
  induction 1 as [|s op _ IH].
  - split; simpl; constructor.
  - now apply apply_op_key_consistent.
Qed.

Lemma apply_op_issued op s :
  issued randomUUID s -> issued randomUUID (apply_op randomUUID Date_now op s).
Proof.
  unfold issued. intros Hi. destruct op as [ins|id upd|id]; simpl.
  - intros k Hin. apply In_keys_set in Hin. destruct Hin as [->|Hin].
    + exists (creations s). split; [lia | reflexivity].
    + destruct (Hi _ Hin) as [i [Hlt ->]]. exists i. split; [lia | reflexivity].
  - unfold updateTodo. destruct (get id (todos s)) as [t|] eqn:E; simpl; auto.
    intros k Hin. apply In_keys_set in Hin. destruct Hin as [->|Hin]; auto.
    apply Hi. apply get_In in E.
    change (In (fst (id, t)) (map fst (todos s))). now apply in_map.
  - intros k Hin. apply Hi. eapply In_keys_remove. exact Hin.
Qed.

Lemma reachable_issued s :
  reachable randomUUID Date_now s -> issued randomUUID s.
Proof.
  induction 1 as [|s op _ IH].
  - intros k [].
  - now apply apply_op_issued.
Qed.

End StoreFacts.

(* ===================================================================== *)
(** * Validation of the body of [POST /api/todos] *)

Lemma parse_insert_without_text o :
  (forall t, property "text" o <> Some (JString t)) ->
  exists errors,
    parse insertTodoSchema (JObject o) = ZodError errors /\
    In (invalid_type zt_string (getParsedType (property "text" o)) ["text"])
       errors.
Proof.
  intros Hno. unfold parse, insertTodoSchema, z_object2. simpl.
  assert (Ht : z_string ["text"] (property "text" o)
               = ZodError [invalid_type zt_string
                             (getParsedType (property "text" o)) ["text"]]).
  { unfold z_string. destruct (property "text" o) as [[| | |t| |]|]; auto.
    now destruct (Hno t). }
  rewrite Ht. eexists. split; [reflexivity|]. simpl. now left.
Qed.

(** C1, as the code has it.  A [POST /api/todos] whose body is an object
    without a string [text] property (missing, or of another type) is
    rejected by schema validation: the response is 400, its errors include
    one whose path is [text], no store call is made and the store is
    unchanged.  The body [{text: ""}] is not rejected: [z.string()] accepts
    the empty string, the response is 201 and a Task with empty text is
    created by one [createTodo] call. *)
Theorem post_todos_text_validation
    (randomUUID : nat -> string) (Date_now : nat -> Z) :
  (forall o s,
     (forall t, property "text" o <> Some (JString t)) ->
     let r := post_todos randomUUID Date_now (JObject o) s in
     status (response r) = 400%nat /\
     references "text" (response r) /\
     calls r = [] /\
     storage r = s) /\
  (forall s,
     let r := post_todos randomUUID Date_now
                (JObject [("text", JString "")]) s in
     let created :=
       {| Todo.id := randomUUID (creations s); Todo.text := "";
          Todo.completed := None;
          Todo.createdAt := Date_now (creations s) |} in
     status (response r) = 201%nat /\
     body (response r) = JsonTodo created /\
     calls r = [call_createTodo (InsertTodo.mk "" None)] /\
     getTodo (Todo.id created) (storage r) = Some created).
Proof.
  split.
  - intros o s Hno r. subst r. unfold post_todos.
    destruct (parse_insert_without_text o Hno) as [errors [-> Hin]].
    simpl. repeat split; auto.
    eexists. split; [exact Hin | reflexivity].
  - intros s. cbn. repeat split; auto.
    unfold getTodo. cbn. apply JsMapFacts.get_set_eq.
Qed.

Lemma post_todos_text_validation_witness :
  status (response (post_todos example_uuid example_clock
                      body_empty_object newMemStorage)) = 400%nat /\
  storage (post_todos example_uuid example_clock
             body_empty_object newMemStorage) = newMemStorage.
Proof.
  destruct (proj1 (post_todos_text_validation example_uuid example_clock)
              [] newMemStorage) as (Hstatus & _ & _ & Hstore).
  - intros t. simpl. discriminate.
  - split; [exact Hstatus | exact Hstore].
Defined.

(** Counterexample to C1 as the specification words it: the body
    [{text: ""}] sent to an empty store is answered 201, after a
    [createTodo] call that stores a Task. *)
Lemma post_empty_text_not_rejected :
  ~ (status (response (post_todos example_uuid example_clock
                         body_empty_text newMemStorage)) = 400%nat /\
     references "text"
       (response (post_todos example_uuid example_clock
                    body_empty_text newMemStorage)) /\
     calls (post_todos example_uuid example_clock
              body_empty_text newMemStorage) = [] /\
     storage (post_todos example_uuid example_clock
                body_empty_text newMemStorage) = newMemStorage).
Proof.
  intros [Hstatus _]. vm_compute in Hstatus. discriminate.
Qed.

(* ===================================================================== *)
(** * [createTodo] and the [completed] default *)

(** C2 fails on the code.  When the input has no [completed] property, the
    Task that [createTodo] returns and stores has no [completed] property
    either: it is not [false]. *)
Theorem createTodo_leaves_completed_absent
    (randomUUID : nat -> string) (Date_now : nat -> Z)
    (text : string) (s : MemStorage) :
  let created :=
    fst (createTodo randomUUID Date_now (InsertTodo.mk text None) s) in
  let s' := snd (createTodo randomUUID Date_now (InsertTodo.mk text None) s) in
  Todo.completed created = None /\
  Todo.completed created <> Some false /\
  getTodo (Todo.id created) s' = Some created.
Proof.
  cbn. repeat split; [discriminate|].
  unfold getTodo. cbn. apply JsMapFacts.get_set_eq.
Qed.

(* ===================================================================== *)
(** * [getTodos] *)

(** C3.  In every store state [getTodos] returns exactly the Tasks of the
    store (a permutation of the map's values), ordered by [createdAt]
    descending; it is a total function, and on an empty collection it
    returns the empty sequence; when the store holds three Tasks created
    at times t1 < t2 < t3, whatever their order in the map, the result is
    the sequence [t3, t2, t1]. *)
Theorem getTodos_newest_first (s : MemStorage) :
  Permutation (getTodos s) (JsMap.values (todos s)) /\
  StronglySorted newer_or_equal (getTodos s) /\
  (todos s = [] -> getTodos s = []) /\
  (forall a b c,
     Permutation (JsMap.values (todos s)) [a; b; c] ->
     Todo.createdAt a < Todo.createdAt b ->
     Todo.createdAt b < Todo.createdAt c ->
     getTodos s = [c; b; a]).
Proof.
  unfold getTodos. repeat split.
  - apply sort_perm.
  - apply sort_sorted.
  - intros ->. reflexivity.
  - intros a b c Hp Hab Hbc. apply sorted_perm_unique.
    + apply sort_sorted.
    + unfold strictly_newer.
      repeat (constructor; [|repeat constructor; lia]). constructor.
    + rewrite sort_perm, Hp.
      transitivity [b; c; a]; [|apply perm_swap].
      transitivity [b; a; c]; [apply perm_swap|].
      apply perm_skip, perm_swap.
Qed.

Lemma getTodos_newest_first_witness :
  getTodos example_store
  = [example_task "c" 30; example_task "b" 20; example_task "a" 10] /\
  getTodos newMemStorage = [].
Proof.
  split.
  - apply (proj2 (proj2 (proj2 (getTodos_newest_first example_store)))).
    + simpl. transitivity [example_task "b" 20; example_task "a" 10;
                           example_task "c" 30].
      * apply perm_skip, perm_swap.
      * apply perm_swap.
    + simpl. lia.
    + simpl. lia.
  - apply (proj1 (proj2 (proj2 (getTodos_newest_first newMemStorage)))).
    reflexivity.
Defined.

(* ===================================================================== *)
(** * [updateTodo] *)

Lemma spread_no_updates existing :
  spread_updates existing (PartialInsertTodo.mk None None) = existing.
Proof. now destruct existing. Qed.

(** C4.  For a Task that exists under [id], [updateTodo(id, {completed:
    true})] returns and stores the Task with [completed] set to true and
    with [id], [text] and [createdAt] as they were.  In general, for any
    partial input, [id] and [createdAt] never change, a property absent
    from the input keeps its value and a property present takes the given
    one; the result is what is stored under [id], and every other Task of
    the store is untouched. *)
Theorem updateTodo_changes_only_given_fields
    (s : MemStorage) (id : string) (existing : Todo.t) :
  getTodo id s = Some existing ->
  fst (updateTodo id (PartialInsertTodo.mk None (Some true)) s)
  = Some {| Todo.id := Todo.id existing;
            Todo.text := Todo.text existing;
            Todo.completed := Some true;
            Todo.createdAt := Todo.createdAt existing |} /\
  (forall updates, exists updated,
     fst (updateTodo id updates s) = Some updated /\
     Todo.id updated = Todo.id existing /\
     Todo.createdAt updated = Todo.createdAt existing /\
     (PartialInsertTodo.text updates = None ->
      Todo.text updated = Todo.text existing) /\
     (PartialInsertTodo.completed updates = None ->
      Todo.completed updated = Todo.completed existing) /\
     (forall x, PartialInsertTodo.text updates = Some x ->
      Todo.text updated = x) /\
     (forall b, PartialInsertTodo.completed updates = Some b ->
      Todo.completed updated = Some b) /\
     getTodo id (snd (updateTodo id updates s)) = Some updated /\
     (forall id', id' <> id ->
      getTodo id' (snd (updateTodo id updates s)) = getTodo id' s)).
Proof.
  unfold getTodo, updateTodo. intros ->. split; [reflexivity|].
  intros updates. eexists. split; [reflexivity|]. cbn.
  repeat split.
  - now intros ->.
  - now intros ->.
  - now intros x ->.
  - now intros b ->.
  - apply JsMapFacts.get_set_eq.
  - intros id' Hne. apply JsMapFacts.get_set_ne. congruence.
Qed.

Lemma updateTodo_changes_only_given_fields_witness :
  fst (updateTodo "b" (PartialInsertTodo.mk None (Some true)) example_store)
  = Some {| Todo.id := "b"; Todo.text := "task"; Todo.completed := Some true;
            Todo.createdAt := 20 |}.
Proof.
  apply (proj1 (updateTodo_changes_only_given_fields
                  example_store "b" (existing := example_task "b" 20)
                  eq_refl)).
Defined.

(** C7.  When no Task has the given [id], [updateTodo] returns absent and
    the store is the very same state afterwards, so no Task was created and
    the size of the collection is what it was.  "No Task has the id" is
    taken both ways: the map has no entry under [id], or, in a state the
    store can reach, no listed Task carries that [id]. *)
Theorem updateTodo_missing_id
    (randomUUID : nat -> string) (Date_now : nat -> Z)
    (s : MemStorage) (id : string) (updates : PartialInsertTodo.t) :
  (getTodo id s = None ->
   updateTodo id updates s = (None, s) /\
   List.length (getTodos (snd (updateTodo id updates s)))
   = List.length (getTodos s)) /\
  (reachable randomUUID Date_now s ->
   (forall t, In t (getTodos s) -> Todo.id t <> id) ->
   updateTodo id updates s = (None, s) /\
   List.length (getTodos (snd (updateTodo id updates s)))
   = List.length (getTodos s)).
Proof.
  assert (Hnone : getTodo id s = None ->
    updateTodo id updates s = (None, s) /\
    List.length (getTodos (snd (updateTodo id updates s)))
    = List.length (getTodos s)).
  { unfold getTodo, updateTodo. intros ->. split; reflexivity. }
  split; [exact Hnone|].
  intros Hreach Hno. apply Hnone.
  unfold getTodo. destruct (JsMap.get id (todos s)) as [t|] eqn:E; auto.
  exfalso. apply (Hno t).
  - eapply Permutation_in; [symmetry; apply sort_perm|].
    apply JsMapFacts.get_In in E.
    change (In (snd (id, t)) (map snd (todos s))). now apply in_map.
  - eapply key_consistent_get; [|exact E].
    eapply reachable_key_consistent. exact Hreach.
Qed.

Lemma updateTodo_missing_id_witness :
  updateTodo "nobody" (PartialInsertTodo.mk (Some "x") None) example_store
  = (None, example_store) /\
  updateTodo "nobody" (PartialInsertTodo.mk (Some "x") None) example_created
  = (None, example_created).
Proof.
  split.
  - apply (proj1 (updateTodo_missing_id example_uuid example_clock
                    example_store "nobody"
                    (PartialInsertTodo.mk (Some "x") None))).
    reflexivity.
  - apply (proj2 (updateTodo_missing_id example_uuid example_clock
                    example_created "nobody"
                    (PartialInsertTodo.mk (Some "x") None))).
    + apply reachable_op, reachable_new.
    + simpl. intros t [<-|[]]. simpl. discriminate.
Defined.

(* ===================================================================== *)
(** * [deleteTodo] *)

Lemma length_remove_present (V : Type) k (v : V) m :
  NoDup (JsMap.keys m) -> JsMap.get k m = Some v ->
  S (List.length (JsMap.remove k m)) = List.length m.
Proof.
  induction m as [|[k0 v0] m IH]; simpl; [discriminate|].
  intros Hnd. inversion Hnd as [|? ? Hnotin Hnd']; subst.
  destruct (String.eqb_spec k k0) as [->|Hne]; simpl.
  - intros _. f_equal.
    change (List.length (JsMap.remove k0 m) = List.length m).
    f_equal. apply JsMapFacts.remove_absent.
    now apply JsMapFacts.get_None_iff.
  - intros E. f_equal. now apply IH.
Qed.

Lemma length_getTodos s : List.length (getTodos s) = List.length (todos s).
Proof.
  unfold getTodos. rewrite (Permutation_length (sort_perm _ _)).
  apply length_map.
Qed.

Lemma sort_insert_front x l :
  Forall (fun z => byCreatedAtDesc x z <= 0) l ->
  sort_insert byCreatedAtDesc x l = x :: l.
Proof.
  intros H. destruct l as [|y l]; simpl; [reflexivity|].
  inversion H as [|? ? Hy _]; subst.
  apply Z.leb_le in Hy. now rewrite Hy.
Qed.

Lemma filter_sort_insert (f : Todo.t -> bool) x l :
  StronglySorted newer_or_equal l ->
  List.filter f (sort_insert byCreatedAtDesc x l)
  = if f x then sort_insert byCreatedAtDesc x (List.filter f l)
    else List.filter f l.
Proof.
  induction 1 as [|y l Hs IH Hall]; simpl.
  - now destruct (f x).
  - destruct (byCreatedAtDesc x y <=? 0) eqn:E; simpl.
    + destruct (f x) eqn:Fx; [|reflexivity].
      destruct (f y) eqn:Fy; simpl; [now rewrite E|].
      symmetry. apply sort_insert_front.
      apply Z.leb_le in E. rewrite Forall_forall in *.
      intros z Hz. apply filter_In in Hz. destruct Hz as [Hz _].
      specialize (Hall z Hz).
      unfold byCreatedAtDesc, newer_or_equal in *. lia.
    + rewrite IH. destruct (f y) eqn:Fy; destruct (f x) eqn:Fx; simpl;
        try rewrite E; reflexivity.
Qed.

Lemma filter_sort (f : Todo.t -> bool) l :
  List.filter f (sort byCreatedAtDesc l)
  = sort byCreatedAtDesc (List.filter f l).
Proof.
  induction l as [|x l IH]; simpl; [reflexivity|].
  rewrite filter_sort_insert by apply sort_sorted.
  rewrite IH. now destruct (f x).
Qed.

Lemma values_remove id (m : JsMap.t Todo.t) :
  Forall (fun kv => Todo.id (snd kv) = fst kv) m ->
  JsMap.values (JsMap.remove id m)
  = List.filter (fun t => negb (String.eqb id (Todo.id t))) (JsMap.values m).
Proof.
  induction 1 as [|[k t] m Hid _ IH]; simpl; [reflexivity|].
  simpl in Hid. rewrite Hid.
  destruct (String.eqb id k); simpl; [exact IH | now rewrite IH].
Qed.

(** C6.  Deleting an existing Task reports a removal and leaves a store in
    which [getTodo] of that [id] is absent, while the Tasks under every
    other [id] are as they were: the entries of the map are those it had,
    less the ones under that [id], and in a reachable state the list is
    the former list without the deleted Task, one shorter.  A second
    [deleteTodo] of the same [id] reports false and leaves exactly the
    state the first one left. *)
Theorem deleteTodo_twice
    (randomUUID : nat -> string) (Date_now : nat -> Z)
    (s : MemStorage) (id : string) (existing : Todo.t) :
  getTodo id s = Some existing ->
  let s1 := snd (deleteTodo id s) in
  let s2 := snd (deleteTodo id s1) in
  fst (deleteTodo id s) = true /\
  getTodo id s1 = None /\
  fst (deleteTodo id s1) = false /\
  s2 = s1 /\
  (forall id', id' <> id -> getTodo id' s1 = getTodo id' s) /\
  (forall entry, In entry (todos s1) <->
                 In entry (todos s) /\ fst entry <> id) /\
  (reachable randomUUID Date_now s ->
   getTodos s1
   = List.filter (fun t => negb (String.eqb id (Todo.id t))) (getTodos s) /\
   S (List.length (getTodos s1)) = List.length (getTodos s)).
Proof.
  unfold getTodo, deleteTodo, JsMap.delete, JsMap.has. intros E.
  cbv zeta. cbn [fst snd todos creations].
  rewrite E, JsMapFacts.get_remove_eq, JsMapFacts.remove_remove.
  do 4 (split; [reflexivity|]). split; [|split].
  - intros id' Hne. apply JsMapFacts.get_remove_ne. congruence.
  - intros entry. apply JsMapFacts.In_remove.
  - intros Hreach. destruct (reachable_key_consistent Hreach) as [Hnd Hall].
    split.
    + unfold getTodos. cbn [todos].
      now rewrite (values_remove _ Hall), filter_sort.
    + rewrite !length_getTodos. cbn [todos].
      eapply length_remove_present; eassumption.
Qed.

Lemma deleteTodo_twice_witness :
  fst (deleteTodo "u" example_two) = true /\
  getTodo "u" (snd (deleteTodo "u" example_two)) = None /\
  getTodo "uu" (snd (deleteTodo "u" example_two)) = getTodo "uu" example_two /\
  getTodos (snd (deleteTodo "u" example_two))
  = [{| Todo.id := "uu"; Todo.text := "Walk"; Todo.completed := Some false;
        Todo.createdAt := 1700000001000 |}].
Proof.
  destruct (@deleteTodo_twice example_uuid example_clock example_two "u"
              {| Todo.id := "u"; Todo.text := "Buy milk";
                 Todo.completed := None;
                 Todo.createdAt := 1700000000000 |} eq_refl)
    as (Hdel & Hgone & _ & _ & Hframe & _ & Hlist).
  split; [exact Hdel|]. split; [exact Hgone|]. split.
  - apply Hframe. discriminate.
  - destruct (Hlist (reachable_op _ (reachable_op _ (reachable_new _ _))))
      as [Hl _].
    exact Hl.
Defined.

(* ===================================================================== *)
(** * Listing, lookup and identifiers *)

Lemma getTodo_In_getTodos s id t : getTodo id s = Some t -> In t (getTodos s).
Proof.
  unfold getTodo, getTodos. intros E.
  eapply Permutation_in; [symmetry; apply sort_perm|].
  apply JsMapFacts.get_In in E.
  change (In (snd (id, t)) (map snd (todos s))). now apply in_map.
Qed.

Lemma In_getTodos_entry s t :
  In t (getTodos s) -> exists k, In (k, t) (todos s).
Proof.
  unfold getTodos. intros Hin.
  eapply Permutation_in in Hin; [|apply sort_perm].
  unfold JsMap.values in Hin. apply in_map_iff in Hin.
  destruct Hin as [[k t'] [E Hin]]. simpl in E. subst t'. now exists k.
Qed.

Lemma ids_are_keys (m : JsMap.t Todo.t) :
  Forall (fun kv => Todo.id (snd kv) = fst kv) m ->
  map Todo.id (JsMap.values m) = JsMap.keys m.
Proof.
  induction 1 as [|[k t] m Hid _ IH]; simpl; [reflexivity|].
  simpl in Hid. now rewrite Hid, IH.
Qed.

Lemma length_set_absent (V : Type) k (v : V) m :
  JsMap.get k m = None ->
  List.length (JsMap.set k v m) = S (List.length m).
Proof.
  induction m as [|[k0 v0] m IH]; simpl; auto.
  destruct (String.eqb k k0); [discriminate|]. simpl. auto.
Qed.

(** C9.  In every state reachable by [createTodo], [updateTodo] and
    [deleteTodo], each Task that [getTodos] lists is what [getTodo] returns
    for the Task's own [id]; the key of every map entry is the [id] of the
    record stored under it; and the record that [updateTodo] returns has
    the [id] it was looked up by and is what the map then holds under that
    key. *)
Theorem getTodo_of_listed_id
    (randomUUID : nat -> string) (Date_now : nat -> Z) (s : MemStorage) :
  reachable randomUUID Date_now s ->
  (forall t, In t (getTodos s) -> getTodo (Todo.id t) s = Some t) /\
  (forall k t, JsMap.get k (todos s) = Some t -> Todo.id t = k) /\
  (forall id updates updated,
     fst (updateTodo id updates s) = Some updated ->
     Todo.id updated = id /\
     getTodo id (snd (updateTodo id updates s)) = Some updated).
Proof.
  intros Hreach.
  pose proof (reachable_key_consistent Hreach) as Hk.
  split; [|split].
  - intros t Hin. destruct (In_getTodos_entry _ _ Hin) as [k Hkt].
    destruct Hk as [Hnd Hall]. rewrite Forall_forall in Hall.
    pose proof (Hall _ Hkt) as Hid. simpl in Hid. rewrite Hid.
    unfold getTodo. now apply JsMapFacts.In_get.
  - intros k t E. eapply key_consistent_get; eassumption.
  - intros id updates updated. unfold updateTodo, getTodo.
    destruct (JsMap.get id (todos s)) as [t|] eqn:E; [|discriminate].
    simpl. intros [= <-]. split.
    + simpl. eapply key_consistent_get; eassumption.
    + apply JsMapFacts.get_set_eq.
Qed.

Lemma getTodo_of_listed_id_witness :
  getTodo "u" example_completed
  = Some {| Todo.id := "u"; Todo.text := "Buy milk";
            Todo.completed := Some true;
            Todo.createdAt := 1700000000000 |}.
Proof.
  apply (proj1 (getTodo_of_listed_id (randomUUID := example_uuid)
                  (Date_now := example_clock) (s := example_completed)
                  (reachable_op _ (reachable_op _ (reachable_new _ _))))
           {| Todo.id := "u"; Todo.text := "Buy milk";
              Todo.completed := Some true;
              Todo.createdAt := 1700000000000 |}).
  simpl. now left.
Defined.

Lemma example_uuid_length k : String.length (example_uuid k) = S k.
Proof. induction k as [|k IH]; simpl; auto. Qed.

Lemma example_uuid_injective i j : example_uuid i = example_uuid j -> i = j.
Proof.
  intros E. apply (f_equal String.length) in E.
  rewrite !example_uuid_length in E. congruence.
Qed.

(** C8.  In every reachable state no two listed Tasks share an [id].
    [createTodo] takes the new [id] from [randomUUID] without looking at the
    store; given that [randomUUID] never returns the same identifier twice,
    the [id] of the new Task is carried by no Task of the store, and two
    creations in a row, whatever their inputs (so also with identical
    text), return Tasks with different [id]s which are both in the store
    afterwards, the collection having grown by two. *)
Theorem createTodo_allocates_fresh_id
    (randomUUID : nat -> string) (Date_now : nat -> Z) (s : MemStorage) :
  reachable randomUUID Date_now s ->
  NoDup (map Todo.id (getTodos s)) /\
  ((forall i j, randomUUID i = randomUUID j -> i = j) ->
   forall insertTodo1 insertTodo2,
     let t1 := fst (createTodo randomUUID Date_now insertTodo1 s) in
     let s1 := snd (createTodo randomUUID Date_now insertTodo1 s) in
     let t2 := fst (createTodo randomUUID Date_now insertTodo2 s1) in
     let s2 := snd (createTodo randomUUID Date_now insertTodo2 s1) in
     getTodo (Todo.id t1) s = None /\
     ~ In (Todo.id t1) (map Todo.id (getTodos s)) /\
     Todo.id t1 <> Todo.id t2 /\
     t1 <> t2 /\
     getTodo (Todo.id t1) s2 = Some t1 /\
     getTodo (Todo.id t2) s2 = Some t2 /\
     In t1 (getTodos s2) /\
     In t2 (getTodos s2) /\
     List.length (getTodos s2) = S (S (List.length (getTodos s)))).
Proof.
  intros Hreach.
  pose proof (reachable_key_consistent Hreach) as [Hnd Hall].
  pose proof (reachable_issued Hreach) as Hiss.
  assert (Hperm : Permutation (map Todo.id (getTodos s)) (JsMap.keys (todos s))).
  { rewrite <- (ids_are_keys Hall). apply Permutation_map, sort_perm. }
  split.
  { eapply Permutation_NoDup; [symmetry; exact Hperm | exact Hnd]. }
  intros Hinj ins1 ins2 t1 s1 t2 s2.
  assert (Hfresh : JsMap.get (randomUUID (creations s)) (todos s) = None).
  { apply JsMapFacts.get_None_iff. intros Hin.
    destruct (Hiss _ Hin) as [i [Hlt E]]. apply Hinj in E. lia. }
  assert (Hne : randomUUID (creations s) <> randomUUID (S (creations s))).
  { intros E. apply Hinj in E. lia. }
  assert (H1 : getTodo (Todo.id t1) s2 = Some t1).
  { unfold getTodo. subst t1 s1 t2 s2. cbn.
    rewrite JsMapFacts.get_set_ne by congruence.
    apply JsMapFacts.get_set_eq. }
  assert (H2 : getTodo (Todo.id t2) s2 = Some t2).
  { unfold getTodo. subst t1 s1 t2 s2. cbn. apply JsMapFacts.get_set_eq. }
  repeat split.
  - exact Hfresh.
  - intros Hin. eapply Permutation_in in Hin; [|exact Hperm].
    apply JsMapFacts.get_None_iff in Hfresh. now apply Hfresh.
  - exact Hne.
  - intros E. apply Hne. exact (f_equal Todo.id E).
  - exact H1.
  - exact H2.
  - eapply getTodo_In_getTodos. exact H1.
  - eapply getTodo_In_getTodos. exact H2.
  - rewrite !length_getTodos. subst t1 s1 t2 s2. cbn.
    rewrite length_set_absent.
    + now rewrite length_set_absent.
    + rewrite JsMapFacts.get_set_ne by congruence.
      apply JsMapFacts.get_None_iff. intros Hin.
      destruct (Hiss _ Hin) as [i [Hlt E]]. apply Hinj in E. lia.
Qed.

Lemma createTodo_allocates_fresh_id_witness :
  Todo.id (fst (createTodo example_uuid example_clock
                  (InsertTodo.mk "Buy milk" None) example_created))
  <> Todo.id (fst (createTodo example_uuid example_clock
                     (InsertTodo.mk "Buy milk" None)
                     (snd (createTodo example_uuid example_clock
                             (InsertTodo.mk "Buy milk" None)
                             example_created)))).
Proof.
  pose proof (createTodo_allocates_fresh_id (s := example_created)
                (reachable_op _ (reachable_new _ _))) as [_ H].
  destruct (H example_uuid_injective
              (InsertTodo.mk "Buy milk" None) (InsertTodo.mk "Buy milk" None))
    as (_ & _ & Hne & _).
  exact Hne.
Defined.

(* ===================================================================== *)
(** * The status codes of the routes *)

(** C5.  In every store state the routes answer as follows.
    [POST /api/todos]: 201 with the created Task when the body passes the
    insert schema; 400 with the validation errors, no store call and an
    unchanged store when it does not.
    [GET /api/todos]: 200 with the list.
    [GET /api/todos/:id]: 200 with the Task when the store has it, 404 when
    it is absent.
    [PATCH /api/todos/:id]: 400, no store call and an unchanged store when
    the body fails the partial schema; otherwise 200 with the updated Task
    when the store has the [id], and 404 with an unchanged store when it
    does not.
    [DELETE /api/todos/:id]: 204 with an empty body when the Task existed
    (and it is gone afterwards), 404 when it did not. *)
Theorem registerRoutes_status_codes
    (randomUUID : nat -> string) (Date_now : nat -> Z) (s : MemStorage) :
  let handle := registerRoutes randomUUID Date_now in
  (forall body,
     match parse insertTodoSchema body with
     | ParseOk validatedData =>
         let created := createTodo randomUUID Date_now validatedData s in
         response (handle (POST_todos body) s)
         = mkResponse 201 (JsonTodo (fst created)) /\
         storage (handle (POST_todos body) s) = snd created /\
         calls (handle (POST_todos body) s) = [call_createTodo validatedData]
     | ZodError errors =>
         response (handle (POST_todos body) s)
         = mkResponse 400 (JsonMessage "Invalid todo data" (Some errors)) /\
         storage (handle (POST_todos body) s) = s /\
         calls (handle (POST_todos body) s) = []
     end) /\
  response (handle GET_todos s) = mkResponse 200 (JsonTodos (getTodos s)) /\
  (forall id,
     match getTodo id s with
     | Some todo =>
         response (handle (GET_todos_id id) s) = mkResponse 200 (JsonTodo todo)
     | None =>
         status (response (handle (GET_todos_id id) s)) = 404%nat
     end) /\
  (forall id body,
     match parse insertTodoSchema_partial body with
     | ParseOk updates =>
         match getTodo id s with
         | Some existing =>
             response (handle (PATCH_todos_id id body) s)
             = mkResponse 200 (JsonTodo (spread_updates existing updates)) /\
             getTodo id (storage (handle (PATCH_todos_id id body) s))
             = Some (spread_updates existing updates)
         | None =>
             status (response (handle (PATCH_todos_id id body) s)) = 404%nat /\
             storage (handle (PATCH_todos_id id body) s) = s
         end
     | ZodError errors =>
         response (handle (PATCH_todos_id id body) s)
         = mkResponse 400 (JsonMessage "Invalid update data" (Some errors)) /\
         storage (handle (PATCH_todos_id id body) s) = s /\
         calls (handle (PATCH_todos_id id body) s) = []
     end) /\
  (forall id,
     match getTodo id s with
     | Some _ =>
         response (handle (DELETE_todos_id id) s) = mkResponse 204 EmptyBody /\
         getTodo id (storage (handle (DELETE_todos_id id) s)) = None
     | None =>
         status (response (handle (DELETE_todos_id id) s)) = 404%nat /\
         storage (handle (DELETE_todos_id id) s) = s
     end).
Proof.
  cbv zeta. unfold registerRoutes. repeat apply conj.
  - intros body. unfold post_todos.
    destruct (parse insertTodoSchema body) as [v|errors]; simpl; auto.
  - reflexivity.
  - intros id. unfold get_todos_id.
    destruct (getTodo id s); reflexivity.
  - intros id body. unfold patch_todos_id.
    destruct (parse insertTodoSchema_partial body) as [updates|errors];
      [|simpl; auto].
    unfold updateTodo, getTodo.
    destruct (JsMap.get id (todos s)) as [existing|]; simpl; auto.
    split; [reflexivity | apply JsMapFacts.get_set_eq].
  - intros id. unfold delete_todos_id, deleteTodo, JsMap.delete, JsMap.has,
      getTodo.
    destruct (JsMap.get id (todos s)) as [existing|] eqn:E; simpl.
    + split; [reflexivity | apply JsMapFacts.get_remove_eq].
    + split; [reflexivity|].
      rewrite (JsMapFacts.remove_absent _ _ E). now destruct s.
Qed.

(* ===================================================================== *)
(** * The empty update *)

(** C10.  The body [{}] passes the partial schema of [PATCH
    /api/todos/:id] and parses to the update with no property.  For an
    [id] that exists, [updateTodo] with that update returns the existing
    Task as it is and leaves the store state identical, and the route
    answers 200 with that Task. *)
Theorem empty_update_is_identity
    (s : MemStorage) (id : string) (existing : Todo.t) :
  getTodo id s = Some existing ->
  parse insertTodoSchema_partial (JObject [])
  = ParseOk (PartialInsertTodo.mk None None) /\
  updateTodo id (PartialInsertTodo.mk None None) s = (Some existing, s) /\
  patch_todos_id id (JObject []) s
  = mkHandled (mkResponse 200 (JsonTodo existing)) s
      [call_updateTodo id (PartialInsertTodo.mk None None)].
Proof.
  intros E.
  assert (Hupd : updateTodo id (PartialInsertTodo.mk None None) s
                 = (Some existing, s)).
  { unfold getTodo in E. unfold updateTodo. rewrite E.
    rewrite spread_no_updates, (JsMapFacts.set_same _ _ E).
    now destruct s. }
  split; [reflexivity|]. split; [exact Hupd|].
  unfold patch_todos_id.
  change (parse insertTodoSchema_partial (JObject []))
    with (ParseOk (PartialInsertTodo.mk None None)).
  cbv iota beta. now rewrite Hupd.
Qed.

Lemma empty_update_is_identity_witness :
  updateTodo "b" (PartialInsertTodo.mk None None) example_store
  = (Some (example_task "b" 20), example_store).
Proof.
  apply (proj1 (proj2 (empty_update_is_identity
                         example_store "b" (existing := example_task "b" 20)
                         eq_refl))).
Defined.

(* ===================================================================== *)
(** * The end-to-end scenario, run on the model

    [POST {text: "Buy milk"}], [GET /api/todos], [PATCH {completed: true}],
    [DELETE], then [GET /api/todos/:id], from an empty store in the example
    environment. *)

Example scenario_post :
  post_todos example_uuid example_clock
    (JObject [("text", JString "Buy milk")]) newMemStorage
  = mkHandled
      (mkResponse 201
         (JsonTodo {| Todo.id := "u"; Todo.text := "Buy milk";
                      Todo.completed := None;
                      Todo.createdAt := 1700000000000 |}))
      example_created
      [call_createTodo (InsertTodo.mk "Buy milk" None)].
Proof. reflexivity. Qed.

Example scenario_list :
  response (get_todos example_created)
  = mkResponse 200
      (JsonTodos [{| Todo.id := "u"; Todo.text := "Buy milk";
                     Todo.completed := None;
                     Todo.createdAt := 1700000000000 |}]).
Proof. reflexivity. Qed.

Example scenario_patch :
  patch_todos_id "u" (JObject [("completed", JBool true)]) example_created
  = mkHandled
      (mkResponse 200
         (JsonTodo {| Todo.id := "u"; Todo.text := "Buy milk";
                      Todo.completed := Some true;
                      Todo.createdAt := 1700000000000 |}))
      example_completed
      [call_updateTodo "u" (PartialInsertTodo.mk None (Some true))].
Proof. reflexivity. Qed.

Example scenario_delete_then_get :
  response (delete_todos_id "u" example_completed)
  = mkResponse 204 EmptyBody /\
  status (response (get_todos_id "u"
                      (storage (delete_todos_id "u" example_completed))))
  = 404%nat.
Proof. split; reflexivity. Qed.

(** Properties outside the shape are dropped by the schema: an [id] in the
    body of a [PATCH] does not reach the store. *)
Example patch_strips_unknown_properties :
  parse insertTodoSchema_partial
    (JObject [("id", JString "other"); ("text", JString "Buy bread")])
  = ParseOk (PartialInsertTodo.mk (Some "Buy bread") None).
Proof. reflexivity. Qed.

(** A [null] or a non-boolean [completed] is a validation error. *)
Example post_rejects_null_completed :
  parse insertTodoSchema
    (JObject [("text", JString "Buy milk"); ("completed", JNull)])
  = ZodError [invalid_type zt_boolean zt_null ["completed"]].
Proof. reflexivity. Qed.

(** Three creations in a row are listed newest first. *)
Example three_creations_listed :
  map Todo.text
    (getTodos
       (apply_op example_uuid example_clock
          (OpCreate (InsertTodo.mk "third" None))
          (apply_op example_uuid example_clock
             (OpCreate (InsertTodo.mk "second" None))
             (apply_op example_uuid example_clock
                (OpCreate (InsertTodo.mk "first" None)) newMemStorage))))
  = ["third"; "second"; "first"].
Proof. reflexivity. Qed.

(* ===================================================================== *)
(** * Further properties of the todo methods of [MemStorage] *)

Lemma set_set (V : Type) k (v1 v2 : V) m :
  JsMap.set k v2 (JsMap.set k v1 m) = JsMap.set k v2 m.
Proof.
  induction m as [|[k0 v0] m IH]; simpl.
  - now rewrite String.eqb_refl.
  - destruct (String.eqb k k0) eqn:E; simpl.
    + now rewrite String.eqb_refl.
    + now rewrite E, IH.
Qed.

Lemma keys_set_present (V : Type) k (v v' : V) m :
  JsMap.get k m = Some v' -> JsMap.keys (JsMap.set k v m) = JsMap.keys m.
Proof.
  induction m as [|[k0 v0] m IH]; simpl; [discriminate|].
  destruct (String.eqb_spec k k0) as [->|Hne]; simpl; [reflexivity|].
  intros E. f_equal. now apply IH.
Qed.

Lemma values_set_absent (V : Type) k (v : V) m :
  JsMap.get k m = None ->
  JsMap.values (JsMap.set k v m) = (JsMap.values m ++ [v])%list.
Proof.
  induction m as [|[k0 v0] m IH]; simpl; [reflexivity|].
  destruct (String.eqb k k0); [discriminate|]. simpl.
  intros E. f_equal. now apply IH.
Qed.

(** X1.  Whatever the store holds, the Task that [createTodo] returns is
    what [getTodo] then finds under the returned [id]; its [text] and
    [completed] are those of the input; and [getTodo] of any other [id]
    answers as before the creation. *)
Theorem createTodo_then_getTodo
    (randomUUID : nat -> string) (Date_now : nat -> Z)
    (insertTodo : InsertTodo.t) (s : MemStorage) :
  let created := fst (createTodo randomUUID Date_now insertTodo s) in
  let s' := snd (createTodo randomUUID Date_now insertTodo s) in
  getTodo (Todo.id created) s' = Some created /\
  In created (getTodos s') /\
  Todo.text created = InsertTodo.text insertTodo /\
  Todo.completed created = InsertTodo.completed insertTodo /\
  (forall id, id <> Todo.id created -> getTodo id s' = getTodo id s).
Proof.
  cbv zeta.
  assert (H : getTodo
                (Todo.id (fst (createTodo randomUUID Date_now insertTodo s)))
                (snd (createTodo randomUUID Date_now insertTodo s))
              = Some (fst (createTodo randomUUID Date_now insertTodo s))).
  { unfold getTodo. cbn. apply JsMapFacts.get_set_eq. }
  split; [exact H|]. split; [eapply getTodo_In_getTodos; exact H|].
  cbn. repeat split.
  intros id Hne. unfold getTodo. cbn.
  apply JsMapFacts.get_set_ne. congruence.
Qed.

Lemma createTodo_then_getTodo_witness :
  getTodo "u"
    (snd (createTodo example_uuid example_clock
            (InsertTodo.mk "Walk" (Some true)) example_created))
  = getTodo "u" example_created.
Proof.
  destruct (createTodo_then_getTodo example_uuid example_clock
              (InsertTodo.mk "Walk" (Some true)) example_created)
    as (_ & _ & _ & _ & Hother).
  apply (Hother "u"). simpl. discriminate.
Defined.

Lemma set_absent_app (V : Type) k (v : V) m :
  JsMap.get k m = None -> JsMap.set k v m = (m ++ [(k, v)])%list.
Proof.
  induction m as [|[k0 v0] m IH]; simpl; [reflexivity|].
  destruct (String.eqb k k0); [discriminate|].
  intros E. now rewrite IH.
Qed.

(** X2.  [createTodo] does not look whether the generated identifier is in
    use.  When it is free, the new Task is appended to the map and the
    collection grows by one.  When it is taken, the new Task replaces the
    one stored under it: the map keeps its keys, [getTodo] of the
    identifier returns the new Task, the size of the collection stays what
    it was and, in a reachable state, the former Task (when it differs
    from the new one) is no longer listed. *)
Theorem createTodo_free_or_taken_id
    (randomUUID : nat -> string) (Date_now : nat -> Z)
    (insertTodo : InsertTodo.t) (s : MemStorage) :
  let id := randomUUID (creations s) in
  let created := fst (createTodo randomUUID Date_now insertTodo s) in
  let s' := snd (createTodo randomUUID Date_now insertTodo s) in
  match getTodo id s with
  | None =>
      todos s' = (todos s ++ [(id, created)])%list /\
      List.length (getTodos s') = S (List.length (getTodos s))
  | Some former =>
      JsMap.keys (todos s') = JsMap.keys (todos s) /\
      getTodo id s' = Some created /\
      List.length (getTodos s') = List.length (getTodos s) /\
      (reachable randomUUID Date_now s ->
       former <> created -> ~ In former (getTodos s'))
  end.
Proof.
  cbv zeta. unfold getTodo. cbn [fst snd createTodo todos].
  destruct (JsMap.get (randomUUID (creations s)) (todos s))
    as [former|] eqn:E.
  - split; [eapply keys_set_present; exact E|].
    split; [apply JsMapFacts.get_set_eq|]. split.
    + rewrite !length_getTodos. cbn [todos].
      eapply JsMapFacts.length_set_present. exact E.
    + intros Hreach Hne Hin.
      pose proof (reachable_key_consistent Hreach) as Hk.
      pose proof (reachable_key_consistent
                    (reachable_op (OpCreate insertTodo) Hreach)) as Hk'.
      destruct (In_getTodos_entry _ _ Hin) as [k Hentry].
      cbn [todos] in Hentry.
      destruct Hk' as [Hnd' Hall']. cbn [apply_op snd createTodo todos] in *.
      rewrite Forall_forall in Hall'.
      pose proof (Hall' _ Hentry) as Hid. simpl in Hid.
      pose proof (@key_consistent_get _ _ _ Hk E) as Hformer.
      rewrite Hformer in Hid. subst k.
      apply JsMapFacts.In_get in Hentry; [|exact Hnd'].
      rewrite JsMapFacts.get_set_eq in Hentry.
      injection Hentry as Heq. apply Hne. now symmetry.
  - split; [now apply set_absent_app|].
    rewrite !length_getTodos. cbn [todos]. now apply length_set_absent.
Qed.

Lemma createTodo_free_or_taken_id_witness :
  ~ In {| Todo.id := "same"; Todo.text := "first"; Todo.completed := None;
          Todo.createdAt := 1700000000000 |}
       (getTodos (snd (createTodo constant_uuid example_clock
                         (InsertTodo.mk "second" None) example_collided))).
Proof.
  destruct (createTodo_free_or_taken_id constant_uuid example_clock
              (InsertTodo.mk "second" None) example_collided)
    as (_ & _ & _ & Hgone).
  apply Hgone.
  - apply reachable_op, reachable_new.
  - discriminate.
Defined.

(** X3.  [deleteTodo] returns true exactly when a Task was stored under
    the [id]; the Tasks under other ids are untouched; when the [id] is
    absent the store is left as it was; and in a reachable state, deleting
    an existing Task makes the list exactly one shorter. *)
Theorem deleteTodo_effect
    (randomUUID : nat -> string) (Date_now : nat -> Z)
    (s : MemStorage) (id : string) :
  (fst (deleteTodo id s) = true <-> exists t, getTodo id s = Some t) /\
  (forall id', id' <> id ->
     getTodo id' (snd (deleteTodo id s)) = getTodo id' s) /\
  (getTodo id s = None -> snd (deleteTodo id s) = s) /\
  (reachable randomUUID Date_now s ->
   forall t, getTodo id s = Some t ->
     S (List.length (getTodos (snd (deleteTodo id s))))
     = List.length (getTodos s)).
Proof.
  unfold deleteTodo, JsMap.delete, JsMap.has, getTodo.
  cbn [fst snd todos creations]. repeat apply conj.
  - destruct (JsMap.get id (todos s)) as [t|]; [eauto | discriminate].
  - intros [t E]. now rewrite E.
  - intros id' Hne. apply JsMapFacts.get_remove_ne. congruence.
  - intros E. rewrite (JsMapFacts.remove_absent _ _ E). now destruct s.
  - intros Hreach t E. rewrite !length_getTodos. cbn.
    destruct (reachable_key_consistent Hreach) as [Hnd _].
    eapply length_remove_present; eassumption.
Qed.

Lemma deleteTodo_effect_witness :
  S (List.length (getTodos (snd (deleteTodo "u" example_completed))))
  = List.length (getTodos example_completed).
Proof.
  apply (proj2 (proj2 (proj2 (deleteTodo_effect example_uuid example_clock
                                example_completed "u")))
           (reachable_op _ (reachable_op _ (reachable_new _ _)))
           {| Todo.id := "u"; Todo.text := "Buy milk";
              Todo.completed := Some true;
              Todo.createdAt := 1700000000000 |}).
  reflexivity.
Defined.

Lemma sort_insert_same_identity x x' l l' :
  same_identity x x' -> Forall2 same_identity l l' ->
  Forall2 same_identity (sort_insert byCreatedAtDesc x l)
                        (sort_insert byCreatedAtDesc x' l').
Proof.
  intros Hx Hl. induction Hl as [|y y' l l' Hy Hl IH]; simpl.
  - constructor; [exact Hx | constructor].
  - assert (E : byCreatedAtDesc x y = byCreatedAtDesc x' y').
    { unfold byCreatedAtDesc. destruct Hx as [_ ->], Hy as [_ ->].
      reflexivity. }
    rewrite E. destruct (byCreatedAtDesc x' y' <=? 0).
    + constructor; [exact Hx|]. constructor; assumption.
    + constructor; assumption.
Qed.

Lemma sort_same_identity l l' :
  Forall2 same_identity l l' ->
  Forall2 same_identity (sort byCreatedAtDesc l) (sort byCreatedAtDesc l').
Proof.
  induction 1; simpl; [constructor|].
  now apply sort_insert_same_identity.
Qed.

Lemma same_identity_refl_list l : Forall2 same_identity l l.
Proof. induction l; constructor; [split; reflexivity | assumption]. Qed.

Lemma values_set_same_identity k t t' m :
  JsMap.get k m = Some t -> same_identity t t' ->
  Forall2 same_identity (JsMap.values m) (JsMap.values (JsMap.set k t' m)).
Proof.
  induction m as [|[k0 v0] m IH]; simpl; [discriminate|].
  destruct (String.eqb k k0); simpl.
  - intros [= ->] Hs. constructor; [exact Hs | apply same_identity_refl_list].
  - intros E Hs. constructor; [split; reflexivity | now apply IH].
Qed.

Lemma Forall2_map_eq (A B : Type) (f : A -> B) (R : A -> A -> Prop) l l' :
  (forall a b, R a b -> f a = f b) -> Forall2 R l l' -> map f l = map f l'.
Proof.
  intros Hf. induction 1 as [|a b l l' Hab _ IH]; simpl; [reflexivity|].
  now rewrite (Hf _ _ Hab), IH.
Qed.

(** X4.  An update never moves a Task in the listing: whatever the store,
    the [id] and the partial input, [getTodos] lists the same ids with
    the same creation times in the same order before and after
    [updateTodo], and the map has the same keys in the same order. *)
Theorem updateTodo_keeps_listing_order
    (s : MemStorage) (id : string) (updates : PartialInsertTodo.t) :
  let s' := snd (updateTodo id updates s) in
  map Todo.id (getTodos s') = map Todo.id (getTodos s) /\
  map Todo.createdAt (getTodos s') = map Todo.createdAt (getTodos s) /\
  JsMap.keys (todos s') = JsMap.keys (todos s).
Proof.
  cbv zeta. unfold updateTodo.
  destruct (JsMap.get id (todos s)) as [existing|] eqn:E; cbn [snd];
    [|repeat split].
  assert (H : Forall2 same_identity
                (getTodos s)
                (getTodos {| todos := JsMap.set id
                                        (spread_updates existing updates)
                                        (todos s);
                             creations := creations s |})).
  { unfold getTodos. apply sort_same_identity. cbn.
    eapply values_set_same_identity; [exact E | split; reflexivity]. }
  repeat split.
  - symmetry. eapply Forall2_map_eq; [|exact H]. now intros a b [Ha _].
  - symmetry. eapply Forall2_map_eq; [|exact H]. now intros a b [_ Hb].
  - cbn. eapply keys_set_present. exact E.
Qed.

Lemma spread_merge existing first second :
  spread_updates (spread_updates existing first) second
  = spread_updates existing (merge_updates first second).
Proof.
  destruct first as [t1 c1], second as [t2 c2]. unfold spread_updates. simpl.
  destruct t2, c2; reflexivity.
Qed.

(** X5.  Two updates of the same [id] in a row amount to one update with
    the merged input (the properties of the second taking precedence):
    the second call returns what the single call returns and leaves the
    same store.  This holds whether or not the [id] exists. *)
Theorem updateTodo_twice_is_merged_update
    (s : MemStorage) (id : string) (first second : PartialInsertTodo.t) :
  updateTodo id second (snd (updateTodo id first s))
  = updateTodo id (merge_updates first second) s.
Proof.
  unfold updateTodo.
  destruct (JsMap.get id (todos s)) as [existing|] eqn:E; cbn [snd todos].
  - rewrite JsMapFacts.get_set_eq. cbn [creations].
    now rewrite spread_merge, set_set.
  - now rewrite E.
Qed.

Lemma apply_op_creations randomUUID Date_now op s :
  (creations s <= creations (apply_op randomUUID Date_now op s))%nat.
Proof.
  destruct op as [ins|id upd|id]; simpl; [lia| |lia].
  unfold updateTodo. destruct (JsMap.get id (todos s)); simpl; lia.
Qed.

Lemma apply_op_issued_id randomUUID Date_now op s i t' :
  (forall a b, randomUUID a = randomUUID b -> a = b) ->
  (i < creations s)%nat ->
  getTodo (randomUUID i) (apply_op randomUUID Date_now op s) = Some t' ->
  exists t, getTodo (randomUUID i) s = Some t /\ same_identity t t'.
Proof.
  intros Hinj Hlt. unfold getTodo.
  destruct op as [ins|id upd|id]; simpl.
  - rewrite JsMapFacts.get_set_ne.
    + intros E. exists t'. repeat split. exact E.
    + intros E. apply Hinj in E. lia.
  - unfold updateTodo.
    destruct (JsMap.get id (todos s)) as [existing|] eqn:E; simpl.
    + destruct (String.eqb_spec id (randomUUID i)) as [->|Hne].
      * rewrite JsMapFacts.get_set_eq. intros [= <-].
        exists existing. repeat split. exact E.
      * rewrite JsMapFacts.get_set_ne by exact Hne.
        intros E'. exists t'. repeat split. exact E'.
    + intros E'. exists t'. repeat split. exact E'.
  - destruct (String.eqb_spec id (randomUUID i)) as [->|Hne].
    + rewrite JsMapFacts.get_remove_eq. discriminate.
    + rewrite JsMapFacts.get_remove_ne by exact Hne.
      intros E'. exists t'. repeat split. exact E'.
Qed.

(** X6.  Provided [randomUUID] never returns the same identifier twice:
    take an identifier that has already been handed out and any sequence
    of creations, updates and deletions.  If a Task is stored under that
    identifier afterwards, then a Task was stored under it before, with
    the same [id] and the same [createdAt].  So [createdAt] never changes
    during the life of a Task, and an identifier whose Task was deleted is
    never given to another Task. *)
Theorem issued_id_keeps_identity
    (randomUUID : nat -> string) (Date_now : nat -> Z)
    (ops : list StoreOp) (s : MemStorage) (i : nat) (t' : Todo.t) :
  (forall a b, randomUUID a = randomUUID b -> a = b) ->
  (i < creations s)%nat ->
  getTodo (randomUUID i) (run randomUUID Date_now ops s) = Some t' ->
  exists t, getTodo (randomUUID i) s = Some t /\ same_identity t t'.
Proof.
  intros Hinj. revert s. unfold run.
  induction ops as [|op ops IH]; intros s Hlt; simpl.
  - intros E. exists t'. repeat split. exact E.
  - intros E. apply IH in E.
    + destruct E as [t1 [E1 [Hid1 Hc1]]].
      eapply apply_op_issued_id in E1; [|exact Hinj|exact Hlt].
      destruct E1 as [t [E0 [Hid0 Hc0]]].
      exists t. split; [exact E0|]. split; congruence.
    + pose proof (apply_op_creations randomUUID Date_now op s). lia.
Qed.

Lemma issued_id_keeps_identity_witness :
  exists t, getTodo (example_uuid 0) example_created = Some t /\
            same_identity t
              {| Todo.id := "u"; Todo.text := "Buy bread";
                 Todo.completed := Some true;
                 Todo.createdAt := 1700000000000 |}.
Proof.
  apply (@issued_id_keeps_identity example_uuid example_clock
           [OpCreate (InsertTodo.mk "Walk" None);
            OpUpdate "u" (PartialInsertTodo.mk (Some "Buy bread") (Some true));
            OpDelete "uu"]
           example_created 0%nat _ example_uuid_injective).
  - vm_compute. lia.
  - reflexivity.
Defined.

(* ===================================================================== *)
(** * Further properties of the schemas and the routes *)

(** X7.  The bodies the two schemas accept.  [insertTodoSchema] accepts
    exactly the objects whose [text] property is a string and whose
    [completed] property is absent or a boolean, and the parsed value
    carries that string and that boolean (or no [completed]); properties
    other than these two play no part.  The partial schema accepts exactly
    the objects in which each of the two properties is absent or of its
    type. *)
Theorem schemas_accept_exactly :
  (forall body insertTodo,
     parse insertTodoSchema body = ParseOk insertTodo <->
     exists o,
       body = JObject o /\
       property "text" o = Some (JString (InsertTodo.text insertTodo)) /\
       property "completed" o
       = option_map JBool (InsertTodo.completed insertTodo)) /\
  (forall body updates,
     parse insertTodoSchema_partial body = ParseOk updates <->
     exists o,
       body = JObject o /\
       property "text" o
       = option_map JString (PartialInsertTodo.text updates) /\
       property "completed" o
       = option_map JBool (PartialInsertTodo.completed updates)).
Proof.
  split.
  - intros body [t c]. unfold parse, insertTodoSchema, z_object2. simpl.
    split.
    + destruct body as [| | | | |o]; try discriminate.
      unfold z_string, z_optional, z_boolean.
      destruct (property "text" o) as [[|?|?|t0|?|?]|] eqn:Ht;
        destruct (property "completed" o) as [[|b0|?|?|?|?]|] eqn:Hc;
        simpl; try discriminate; intros [= <- <-]; exists o;
        rewrite Ht, Hc; repeat split.
    + intros [o [-> [Ht Hc]]]. rewrite Ht, Hc.
      destruct c; reflexivity.
  - intros body [t c]. unfold parse, insertTodoSchema_partial, z_object2.
    simpl. split.
    + destruct body as [| | | | |o]; try discriminate.
      unfold z_string, z_optional, z_boolean.
      destruct (property "text" o) as [[|?|?|t0|?|?]|] eqn:Ht;
        destruct (property "completed" o) as [[|b0|?|?|?|?]|] eqn:Hc;
        simpl; try discriminate; intros [= <- <-]; exists o;
        rewrite Ht, Hc; repeat split.
    + intros [o [-> [Ht Hc]]]. rewrite Ht, Hc.
      destruct t, c; reflexivity.
Qed.

(** X8.  Whatever the body of a [PATCH /api/todos/:id] contains, a
    response that carries a Task carries one with the [id] and the
    [createdAt] of the Task that was stored under the [id] of the route,
    and the store has the same keys afterwards: a body cannot change the
    [id] or the [createdAt] of a Task, nor add or remove one. *)
Theorem patch_cannot_change_identity
    (id : string) (body : json) (s : MemStorage) (sent : Todo.t) :
  ResBody_todo (patch_todos_id id body s) = Some sent ->
  (exists existing,
     getTodo id s = Some existing /\ same_identity existing sent) /\
  JsMap.keys (todos (storage (patch_todos_id id body s)))
  = JsMap.keys (todos s).
Proof.
  unfold ResBody_todo, patch_todos_id.
  destruct (parse insertTodoSchema_partial body) as [updates|errors];
    [|discriminate].
  unfold updateTodo, getTodo.
  destruct (JsMap.get id (todos s)) as [existing|] eqn:E; [|discriminate].
  cbn. intros [= <-]. split.
  - exists existing. repeat split.
  - eapply keys_set_present. exact E.
Qed.

Lemma patch_cannot_change_identity_witness :
  (exists existing,
     getTodo "u" example_created = Some existing /\
     same_identity existing
       {| Todo.id := "u"; Todo.text := "Buy bread"; Todo.completed := None;
          Todo.createdAt := 1700000000000 |}) /\
  JsMap.keys (todos (storage
     (patch_todos_id "u"
        (JObject [("id", JString "other"); ("createdAt", JNumber 0);
                  ("text", JString "Buy bread")])
        example_created)))
  = JsMap.keys (todos example_created).
Proof.
  apply (@patch_cannot_change_identity "u"
           (JObject [("id", JString "other"); ("createdAt", JNumber 0);
                     ("text", JString "Buy bread")])
           example_created).
  reflexivity.
Defined.

(** X9.  A Task created through [POST /api/todos] can be read back: when
    the response is 201, it carries a Task, [GET /api/todos/:id] with that
    Task's [id] then answers 200 with the same Task, and the list that
    [GET /api/todos] then sends contains it. *)
Theorem post_then_get
    (randomUUID : nat -> string) (Date_now : nat -> Z)
    (body : json) (s : MemStorage) :
  status (response (post_todos randomUUID Date_now body s)) = 201%nat ->
  exists created,
    ResBody_todo (post_todos randomUUID Date_now body s) = Some created /\
    response (get_todos_id (Todo.id created)
                (storage (post_todos randomUUID Date_now body s)))
    = mkResponse 200 (JsonTodo created) /\
    exists listed,
      body_of_get_todos
        (storage (post_todos randomUUID Date_now body s)) = listed /\
      In created listed.
Proof.
  unfold post_todos, ResBody_todo, body_of_get_todos.
  destruct (parse insertTodoSchema body) as [validatedData|errors];
    [|discriminate].
  intros _. unfold createTodo. cbn.
  set (created := {| Todo.id := randomUUID (creations s);
                     Todo.text := InsertTodo.text validatedData;
                     Todo.completed := InsertTodo.completed validatedData;
                     Todo.createdAt := Date_now (creations s) |}).
  set (s' := {| todos := JsMap.set (randomUUID (creations s)) created (todos s);
                creations := S (creations s) |}).
  assert (Hget : getTodo (randomUUID (creations s)) s' = Some created)
    by (unfold getTodo; apply JsMapFacts.get_set_eq).
  exists created. split; [reflexivity|]. split.
  - unfold get_todos_id. cbn [Todo.id created storage].
    fold s'. now rewrite Hget.
  - eexists. split; [reflexivity|].
    change (In created (getTodos s')).
    eapply getTodo_In_getTodos. exact Hget.
Qed.

Lemma post_then_get_witness :
  exists created,
    ResBody_todo (post_todos example_uuid example_clock
                    (JObject [("text", JString "Buy milk")]) newMemStorage)
    = Some created /\
    response (get_todos_id (Todo.id created) example_created)
    = mkResponse 200 (JsonTodo created).
Proof.
  destruct (@post_then_get example_uuid example_clock
              (JObject [("text", JString "Buy milk")]) newMemStorage eq_refl)
    as [created [Hsent [Hget _]]].
  exists created. split; [exact Hsent | exact Hget].
Defined.

(** X10.  After a [DELETE /api/todos/:id], whatever its answer, the Task
    is gone for every route: [GET /api/todos/:id] answers 404, a second
    [DELETE] answers 404, and a [PATCH] of that [id] is answered 404 or,
    when its body is invalid, 400, but never 200. *)
Theorem delete_then_not_found (id : string) (s : MemStorage) :
  let s' := storage (delete_todos_id id s) in
  status (response (get_todos_id id s')) = 404%nat /\
  status (response (delete_todos_id id s')) = 404%nat /\
  (forall body,
     status (response (patch_todos_id id body s'))
     = match parse insertTodoSchema_partial body with
       | ParseOk _ => 404%nat
       | ZodError _ => 400%nat
       end).
Proof.
  cbv zeta.
  assert (Hgone : JsMap.get id (todos (storage (delete_todos_id id s))) = None).
  { unfold delete_todos_id, deleteTodo, JsMap.delete, JsMap.has.
    destruct (JsMap.get id (todos s)); cbn; apply JsMapFacts.get_remove_eq. }
  revert Hgone. generalize (storage (delete_todos_id id s)) as s'.
  intros s' Hgone. repeat split.
  - unfold get_todos_id, getTodo. now rewrite Hgone.
  - unfold delete_todos_id, deleteTodo, JsMap.delete, JsMap.has.
    now rewrite Hgone.
  - intros body. unfold patch_todos_id.
    destruct (parse insertTodoSchema_partial body) as [updates|errors];
      [|reflexivity].
    unfold updateTodo. now rewrite Hgone.
Qed.

(** X11.  A request that is answered 400 or 404 leaves the store exactly
    as it was, and so does every [GET], whatever its answer. *)
Theorem failed_requests_change_nothing
    (randomUUID : nat -> string) (Date_now : nat -> Z)
    (req : Request) (s : MemStorage) :
  match req with
  | GET_todos | GET_todos_id _ => True
  | _ => (400 <= status (response (registerRoutes randomUUID Date_now req s)))%nat
  end ->
  storage (registerRoutes randomUUID Date_now req s) = s.
Proof.
  destruct req as [|id|body|id body|id]; simpl.
  - reflexivity.
  - unfold get_todos_id. destruct (getTodo id s); reflexivity.
  - unfold post_todos.
    destruct (parse insertTodoSchema body) as [v|errors]; simpl; [lia|auto].
  - unfold patch_todos_id.
    destruct (parse insertTodoSchema_partial body) as [updates|errors];
      [|reflexivity].
    unfold updateTodo.
    destruct (JsMap.get id (todos s)) as [existing|]; simpl; [lia|auto].
  - unfold delete_todos_id, deleteTodo, JsMap.delete, JsMap.has.
    destruct (JsMap.get id (todos s)) as [existing|] eqn:E; simpl; [lia|].
    intros _. rewrite (JsMapFacts.remove_absent _ _ E). now destruct s.
Qed.

Lemma failed_requests_change_nothing_witness :
  storage (registerRoutes example_uuid example_clock
             (PATCH_todos_id "nobody" (JObject [("text", JNumber 3)]))
             example_created)
  = example_created.
Proof.
  apply (@failed_requests_change_nothing example_uuid example_clock
           (PATCH_todos_id "nobody" (JObject [("text", JNumber 3)]))
           example_created).
  cbn. lia.
Defined.

(* ===================================================================== *)
(** * The user methods *)

Lemma property_get k (o : JsObject) : property k o = JsMap.get k o.
Proof.
  induction o as [|[k0 v0] o IH]; simpl; [reflexivity|].
  now rewrite IH.
Qed.

Lemma username_is_true username user :
  username_is username user = true <->
  property "username" user = Some (JString username).
Proof.
  unfold username_is.
  destruct (property "username" user) as [[| | |u| |]|];
    try (split; discriminate).
  rewrite String.eqb_eq. split; [now intros -> | now intros [= ->]].
Qed.

Lemma find_app_last (A : Type) (f : A -> bool) l x :
  List.find f (l ++ [x])
  = match List.find f l with
    | Some y => Some y
    | None => if f x then Some x else None
    end.
Proof.
  induction l as [|y l IH]; simpl; [reflexivity|].
  destruct (f y); [reflexivity | exact IH].
Qed.

(** X12.  The user that [createUser] returns is what [getUser] then finds
    under the generated identifier; its [id] property is that identifier
    even when the input carried an [id] of its own, every other property
    is the input's, and the users under other identifiers are untouched. *)
Theorem createUser_then_getUser
    (id : string) (insertUser : JsObject) (users : JsMap.t JsObject) :
  let user := fst (createUser id insertUser users) in
  let users' := snd (createUser id insertUser users) in
  getUser id users' = Some user /\
  property "id" user = Some (JString id) /\
  (forall key, key <> "id" -> property key user = property key insertUser) /\
  (forall id', id' <> id -> getUser id' users' = getUser id' users).
Proof.
  cbv zeta. unfold createUser, getUser. cbn [fst snd]. repeat split.
  - apply JsMapFacts.get_set_eq.
  - rewrite property_get. apply JsMapFacts.get_set_eq.
  - intros key Hne. rewrite !property_get.
    apply JsMapFacts.get_set_ne. congruence.
  - intros id' Hne. apply JsMapFacts.get_set_ne. congruence.
Qed.

Lemma createUser_then_getUser_witness :
  property "username" (fst (createUser "id-1" example_user JsMap.empty))
  = property "username" example_user.
Proof.
  destruct (createUser_then_getUser "id-1" example_user JsMap.empty)
    as (_ & _ & Hkeep & _).
  apply (Hkeep "username"). discriminate.
Defined.

(** X13.  [getUserByUsername] answers with a stored user whose [username]
    property is the string asked for, and it answers [undefined] exactly
    when no stored user has that [username]. *)
Theorem getUserByUsername_finds
    (username : string) (users : JsMap.t JsObject) :
  (forall user,
     getUserByUsername username users = Some user ->
     In user (JsMap.values users) /\
     property "username" user = Some (JString username)) /\
  (getUserByUsername username users = None <->
   forall user, In user (JsMap.values users) ->
     property "username" user <> Some (JString username)).
Proof.
  unfold getUserByUsername. split; [|split].
  - intros user E. apply find_some in E. destruct E as [Hin Hu].
    split; [exact Hin | now apply username_is_true].
  - intros E user Hin Hp. apply username_is_true in Hp.
    pose proof (find_none _ _ E _ Hin) as Hf. congruence.
  - intros Hno.
    destruct (find (username_is username) (JsMap.values users))
      as [user|] eqn:E; [|reflexivity].
    apply find_some in E. destruct E as [Hin Hu].
    apply username_is_true in Hu. now destruct (Hno user Hin).
Qed.

Lemma getUserByUsername_finds_witness :
  property "username" (fst (createUser "id-1" example_user JsMap.empty))
  = Some (JString "ada").
Proof.
  apply (proj1 (getUserByUsername_finds "ada"
                  (snd (createUser "id-1" example_user JsMap.empty)))
           (fst (createUser "id-1" example_user JsMap.empty)) eq_refl).
Defined.

(** X14.  [createUser] does not check that the [username] is free.  When
    the generated identifier is new, a user who already had the
    [username] keeps being the one [getUserByUsername] returns; the new
    user is returned only if nobody had that [username] before. *)
Theorem createUser_earlier_username_wins
    (id : string) (insertUser : JsObject) (users : JsMap.t JsObject)
    (username : string) :
  getUser id users = None ->
  getUserByUsername username (snd (createUser id insertUser users))
  = match getUserByUsername username users with
    | Some earlier => Some earlier
    | None =>
        if username_is username insertUser
        then Some (fst (createUser id insertUser users))
        else None
    end.
Proof.
  unfold getUser, getUserByUsername, createUser. cbn [fst snd]. intros E.
  rewrite (@values_set_absent _ _ _ _ E), find_app_last.
  assert (Hu : username_is username
                 (JsMap.set "id" (JString id) insertUser)
               = username_is username insertUser).
  { unfold username_is. rewrite !property_get.
    rewrite JsMapFacts.get_set_ne by discriminate. reflexivity. }
  now rewrite Hu.
Qed.

Lemma createUser_earlier_username_wins_witness :
  getUserByUsername "ada"
    (snd (createUser "id-2" [("username", JString "ada")]
            (snd (createUser "id-1" example_user JsMap.empty))))
  = Some (fst (createUser "id-1" example_user JsMap.empty)).
Proof.
  apply (@createUser_earlier_username_wins "id-2"
           [("username", JString "ada")]
           (snd (createUser "id-1" example_user JsMap.empty)) "ada").
  reflexivity.
Defined.

(* ===================================================================== *)
(** * The page component *)

Lemma filter_lengths (A : Type) (f : A -> bool) (l : list A) :
  (List.length (List.filter f l)
   + List.length (List.filter (fun x => negb (f x)) l))%nat
  = List.length l.
Proof.
  induction l as [|x l IH]; simpl; [reflexivity|].
  destruct (f x); simpl; lia.
Qed.

Lemma filter_true (A : Type) (l : list A) : List.filter (fun _ => true) l = l.
Proof. induction l as [|x l IH]; simpl; [reflexivity | now rewrite IH]. Qed.

(** X15.  The counters agree with the tabs: [completedTodos] is the number
    of Tasks the "completed" filter shows, [activeTodos] (computed as the
    total minus the completed) is the number the "active" filter shows, the
    "all" filter shows the list as it is, and every Task is on exactly one
    of the two tabs, a Task without a [completed] property being on the
    "active" one. *)
Theorem counters_match_filters (todos : list Todo.t) :
  completedTodos todos
  = Z.of_nat (List.length (filteredTodos filter_completed todos)) /\
  activeTodos todos
  = Z.of_nat (List.length (filteredTodos filter_active todos)) /\
  filteredTodos filter_all todos = todos /\
  (forall todo, In todo todos ->
     (In todo (filteredTodos filter_active todos) <->
      ~ In todo (filteredTodos filter_completed todos))) /\
  (forall todo, In todo todos -> Todo.completed todo = None ->
     In todo (filteredTodos filter_active todos)).
Proof.
  unfold activeTodos, totalTodos, completedTodos, filteredTodos.
  repeat apply conj.
  - reflexivity.
  - pose proof (filter_lengths (fun todo => truthy (Todo.completed todo)) todos).
    lia.
  - apply filter_true.
  - intros todo Hin. rewrite !filter_In.
    destruct (truthy (Todo.completed todo)); simpl; intuition congruence.
  - intros todo Hin Hnone. rewrite filter_In, Hnone. auto.
Qed.

Lemma counters_match_filters_witness :
  In {| Todo.id := "u"; Todo.text := "Buy milk"; Todo.completed := None;
        Todo.createdAt := 1700000000000 |}
     (filteredTodos filter_active (getTodos example_created)).
Proof.
  destruct (counters_match_filters (getTodos example_created))
    as (_ & _ & _ & _ & Habsent).
  apply Habsent; [simpl; now left | reflexivity].
Defined.

Lemma filter_StronglySorted (A : Type) (R : A -> A -> Prop) f l :
  StronglySorted R l -> StronglySorted R (List.filter f l).
Proof.
  induction 1 as [|x l Hs IH Hall]; simpl; [constructor|].
  destruct (f x); [|exact IH].
  constructor; [exact IH|].
  rewrite Forall_forall in *. intros y Hy. apply filter_In in Hy.
  apply Hall. tauto.
Qed.

(** X16.  Whatever tab is selected, what the page shows of the list sent
    by the store is still ordered newest first, and shows only Tasks of
    the store. *)
Theorem filtered_list_newest_first (filter : FilterType) (s : MemStorage) :
  StronglySorted newer_or_equal (filteredTodos filter (getTodos s)) /\
  (forall todo, In todo (filteredTodos filter (getTodos s)) ->
     getTodo_in_store todo s).
Proof.
  split.
  - apply filter_StronglySorted, sort_sorted.
  - intros todo Hin. apply filter_In in Hin. destruct Hin as [Hin _].
    unfold getTodo_in_store. now apply In_getTodos_entry.
Qed.

Lemma filtered_list_newest_first_witness :
  getTodo_in_store (example_task "c" 30) example_store.
Proof.
  apply (proj2 (filtered_list_newest_first filter_active example_store)
           (example_task "c" 30)).
  simpl. now left.
Defined.

Lemma string_app_assoc (a b c : string) : (a ++ b) ++ c = a ++ (b ++ c).
Proof. induction a as [|x a IH]; simpl; [reflexivity | now rewrite IH]. Qed.

Lemma string_app_nil_r (a : string) : a ++ "" = a.
Proof. induction a as [|x a IH]; simpl; [reflexivity | now rewrite IH]. Qed.

Lemma string_app_empty (a b : string) : a ++ b = "" -> b = "".
Proof. destruct a; simpl; [auto | discriminate]. Qed.

Section TrimFacts.
Variable isWhiteSpace : string -> bool.
Hypothesis tokens : token_discipline isWhiteSpace.

Local Abbreviation trimStart := (trimStart isWhiteSpace).
Local Abbreviation trimEnd := (trimEnd isWhiteSpace).
Local Abbreviation trim := (trim isWhiteSpace).
Local Abbreviation WhiteSpaceOnly := (WhiteSpaceOnly isWhiteSpace).

Lemma token_not_empty t : isWhiteSpace t = true -> t <> "".
Proof.
  intros Ht.
  destruct (tokens Ht) as [[a ->]|[(a & b & -> & _)|(a & b & c & -> & _)]];
    discriminate.
Qed.

Lemma WhiteSpaceOnly_app a b :
  WhiteSpaceOnly a -> WhiteSpaceOnly b -> WhiteSpaceOnly (a ++ b).
Proof.
  induction 1 as [|t s Ht _ IH]; intros Hb; simpl; [exact Hb|].
  rewrite string_app_assoc. constructor; auto.
Qed.

Lemma trimStart_split_bounded n : forall s,
  (String.length s <= n)%nat ->
  exists pre, s = pre ++ trimStart s /\ WhiteSpaceOnly pre.
Proof.
  induction n as [|n IH]; intros s Hlen.
  - destruct s; [|simpl in Hlen; lia].
    exists "". split; [reflexivity|constructor].
  - destruct s as [|c1 s1]; [exists ""; split; [reflexivity|constructor]|].
    simpl in Hlen. simpl.
    destruct (isWhiteSpace (String c1 "")) eqn:E1.
    { destruct (IH s1 ltac:(lia)) as [pre [Hs Hpre]].
      exists (String c1 "" ++ pre). split.
      - simpl. congruence.
      - now constructor. }
    destruct s1 as [|c2 s2]; [exists ""; split; [reflexivity|constructor]|].
    simpl in Hlen.
    destruct (isWhiteSpace (String c1 (String c2 ""))) eqn:E2.
    { destruct (IH s2 ltac:(lia)) as [pre [Hs Hpre]].
      exists (String c1 (String c2 "") ++ pre). split.
      - simpl. congruence.
      - now constructor. }
    destruct s2 as [|c3 s3]; [exists ""; split; [reflexivity|constructor]|].
    simpl in Hlen.
    destruct (isWhiteSpace (String c1 (String c2 (String c3 "")))) eqn:E3.
    { destruct (IH s3 ltac:(lia)) as [pre [Hs Hpre]].
      exists (String c1 (String c2 (String c3 "")) ++ pre). split.
      - simpl. congruence.
      - now constructor. }
    exists "". split; [reflexivity|constructor].
Qed.

Lemma trimStart_split s :
  exists pre, s = pre ++ trimStart s /\ WhiteSpaceOnly pre.
Proof. apply (@trimStart_split_bounded (String.length s)). lia. Qed.

Lemma trimStart_no_leading_bounded n : forall s t rest,
  (String.length s <= n)%nat ->
  trimStart s = t ++ rest -> isWhiteSpace t = true -> False.
Proof.
  induction n as [|n IH]; intros s t rest Hlen Hs Ht.
  - destruct s; [|simpl in Hlen; lia]. simpl in Hs.
    symmetry in Hs. destruct t; [now apply (token_not_empty Ht)|discriminate].
  - destruct s as [|c1 s1].
    { simpl in Hs. symmetry in Hs.
      destruct t; [now apply (token_not_empty Ht)|discriminate]. }
    simpl in Hlen. simpl in Hs.
    destruct (isWhiteSpace (String c1 "")) eqn:E1;
      [exact (IH s1 t rest ltac:(lia) Hs Ht)|].
    destruct s1 as [|c2 s2].
    { destruct (tokens Ht)
        as [[a ->]|[(a & b & -> & _)|(a & b & c & -> & _)]];
        simpl in Hs; try discriminate.
      injection Hs as <- _. congruence. }
    simpl in Hlen.
    destruct (isWhiteSpace (String c1 (String c2 ""))) eqn:E2;
      [exact (IH s2 t rest ltac:(lia) Hs Ht)|].
    destruct s2 as [|c3 s3].
    { destruct (tokens Ht)
        as [[a ->]|[(a & b & -> & _)|(a & b & c & -> & _)]];
        simpl in Hs; try discriminate.
      - injection Hs as <- _. congruence.
      - injection Hs as <- <- _. congruence. }
    simpl in Hlen.
    destruct (isWhiteSpace (String c1 (String c2 (String c3 "")))) eqn:E3;
      [exact (IH s3 t rest ltac:(lia) Hs Ht)|].
    destruct (tokens Ht)
      as [[a ->]|[(a & b & -> & _)|(a & b & c & -> & _)]];
      simpl in Hs.
    + injection Hs as <- _. congruence.
    + injection Hs as <- <- _. congruence.
    + injection Hs as <- <- <- _. congruence.
Qed.

Lemma trimStart_WhiteSpaceOnly s : WhiteSpaceOnly s -> trimStart s = "".
Proof.
  induction 1 as [|t s Ht _ IH]; [reflexivity|].
  destruct (tokens Ht)
    as [[a ->]|[(a & b & -> & Ha)|(a & b & c & -> & Ha & Hab)]]; simpl.
  - now rewrite Ht.
  - now rewrite Ha, Ht.
  - now rewrite Ha, Hab, Ht.
Qed.

Lemma trimEnd_split s :
  exists post, s = trimEnd s ++ post /\ WhiteSpaceOnly post.
Proof.
  induction s as [|c s [post [Hs Hpost]]]; simpl.
  - exists "". split; [reflexivity|constructor].
  - destruct (isWhiteSpace (String c (trimEnd s))) eqn:E.
    + exists (String c s). split; [reflexivity|].
      rewrite Hs at 1.
      change (WhiteSpaceOnly (String c (trimEnd s) ++ post)).
      now constructor.
    + exists post. split; [|exact Hpost]. simpl. congruence.
Qed.

Lemma trimEnd_no_trailing s : forall rest t,
  trimEnd s = rest ++ t -> isWhiteSpace t = true -> False.
Proof.
  induction s as [|c s IH]; simpl; intros rest t Hs Ht.
  - symmetry in Hs. apply string_app_empty in Hs.
    now apply (token_not_empty Ht).
  - destruct (isWhiteSpace (String c (trimEnd s))) eqn:E.
    + symmetry in Hs. apply string_app_empty in Hs.
      now apply (token_not_empty Ht).
    + destruct rest as [|c' rest']; simpl in Hs.
      * subst t. congruence.
      * injection Hs as _ Hs. exact (IH _ _ Hs Ht).
Qed.

Lemma trim_empty_iff s : trim s = "" <-> WhiteSpaceOnly s.
Proof.
  unfold trim. split.
  - intros E.
    destruct (trimStart_split s) as [pre [Hs Hpre]].
    destruct (trimEnd_split (trimStart s)) as [post [Hs' Hpost]].
    rewrite E in Hs'. simpl in Hs'. rewrite Hs, Hs'.
    now apply WhiteSpaceOnly_app.
  - intros H. now rewrite (trimStart_WhiteSpaceOnly H).
Qed.

Lemma trim_no_leading s t rest :
  trim s = t ++ rest -> isWhiteSpace t = true -> False.
Proof.
  unfold trim. intros E Ht.
  destruct (trimEnd_split (trimStart s)) as [post [Hs' Hpost]].
  rewrite E, string_app_assoc in Hs'.
  exact (@trimStart_no_leading_bounded _ _ _ _ (le_n _) Hs' Ht).
Qed.

Lemma trim_split s :
  exists pre post,
    s = pre ++ trim s ++ post /\ WhiteSpaceOnly pre /\ WhiteSpaceOnly post.
Proof.
  destruct (trimStart_split s) as [pre [Hs Hpre]].
  destruct (trimEnd_split (trimStart s)) as [post [Hs' Hpost]].
  exists pre, post. unfold trim. split; [|tauto]. congruence.
Qed.

Lemma handleCreateTodo_trimmed (newTodoText : string) :
  (handleCreateTodo isWhiteSpace newTodoText = None <->
   WhiteSpaceOnly newTodoText) /\
  (forall data,
     handleCreateTodo isWhiteSpace newTodoText = Some data ->
     InsertTodo.completed data = Some false /\
     InsertTodo.text data <> "" /\
     (forall t rest, InsertTodo.text data = t ++ rest ->
                     isWhiteSpace t = true -> False) /\
     (forall rest t, InsertTodo.text data = rest ++ t ->
                     isWhiteSpace t = true -> False) /\
     (exists pre post,
        newTodoText = pre ++ InsertTodo.text data ++ post /\
        WhiteSpaceOnly pre /\ WhiteSpaceOnly post)).
Proof.
  unfold handleCreateTodo. split.
  - rewrite <- trim_empty_iff.
    destruct (String.eqb_spec (trim newTodoText) ""); split; congruence.
  - intros data.
    destruct (String.eqb_spec (trim newTodoText) "") as [E|Hne];
      [discriminate|].
    intros [= <-]. simpl. repeat split.
    + exact Hne.
    + intros t rest. apply trim_no_leading.
    + intros rest t. apply trimEnd_no_trailing.
    + apply trim_split.
Qed.

Lemma handleSaveEdit_trimmed (editText : string) (editingId : option string) :
  (handleSaveEdit isWhiteSpace editText editingId = None <->
   WhiteSpaceOnly editText \/ editingId = None \/ editingId = Some "") /\
  (forall id updates,
     handleSaveEdit isWhiteSpace editText editingId = Some (id, updates) ->
     editingId = Some id /\
     updates = PartialInsertTodo.mk (Some (trim editText)) None /\
     trim editText <> "" /\
     (forall t rest, trim editText = t ++ rest ->
                     isWhiteSpace t = true -> False) /\
     (forall rest t, trim editText = rest ++ t ->
                     isWhiteSpace t = true -> False) /\
     (exists pre post,
        editText = pre ++ trim editText ++ post /\
        WhiteSpaceOnly pre /\ WhiteSpaceOnly post) /\
     (forall s existing,
        getTodo id s = Some existing ->
        fst (updateTodo id updates s)
        = Some {| Todo.id := Todo.id existing;
                  Todo.text := trim editText;
                  Todo.completed := Todo.completed existing;
                  Todo.createdAt := Todo.createdAt existing |})).
Proof.
  unfold handleSaveEdit. split.
  - rewrite <- trim_empty_iff. destruct editingId as [id|].
    + destruct (String.eqb_spec (trim editText) "") as [E|Hne];
        destruct (String.eqb_spec id "") as [E'|Hne']; simpl;
        split; auto; try discriminate.
      * subst id. auto.
      * intros [H|[H|H]]; congruence.
    + split; auto.
  - intros id updates. destruct editingId as [id0|]; [|discriminate].
    destruct (String.eqb_spec (trim editText) "") as [E|Hne];
      [discriminate|].
    destruct (String.eqb_spec id0 ""); [discriminate|]. simpl.
    intros [= <- <-]. repeat split; auto.
    + intros t rest. apply trim_no_leading.
    + intros rest t. apply trimEnd_no_trailing.
    + apply trim_split.
    + intros s existing Hget. unfold getTodo in Hget. unfold updateTodo.
      now rewrite Hget.
Qed.

End TrimFacts.

Lemma whiteSpace_tokens : token_discipline whiteSpace.
Proof.
  intros t Ht. unfold whiteSpace in Ht. apply existsb_exists in Ht.
  destruct Ht as [x [Hin E]]. apply String.eqb_eq in E. subst x.
  simpl in Hin.
  repeat (destruct Hin as [<-|Hin];
          [first [ left; eexists; reflexivity
                 | right; left; do 2 eexists; split; reflexivity
                 | right; right; do 3 eexists; repeat split; reflexivity ]|]).
  destruct Hin.
Qed.

(** X17.  Strings being UTF-8 text and white space being the characters
    that [String.prototype.trim] removes: [handleCreateTodo] submits
    nothing exactly when the input is empty or white space only.
    Otherwise it submits [completed: false] and the input without the
    white space around it: the text is not empty, no white space
    character is at its start or at its end, and the input is that text
    between two runs of white space. *)
Theorem handleCreateTodo_submits_trimmed_text (newTodoText : string) :
  (handleCreateTodo whiteSpace newTodoText = None <->
   WhiteSpaceOnly whiteSpace newTodoText) /\
  (forall data,
     handleCreateTodo whiteSpace newTodoText = Some data ->
     InsertTodo.completed data = Some false /\
     InsertTodo.text data <> "" /\
     (forall t rest, InsertTodo.text data = t ++ rest ->
                     whiteSpace t = true -> False) /\
     (forall rest t, InsertTodo.text data = rest ++ t ->
                     whiteSpace t = true -> False) /\
     (exists pre post,
        newTodoText = pre ++ InsertTodo.text data ++ post /\
        WhiteSpaceOnly whiteSpace pre /\ WhiteSpaceOnly whiteSpace post)).
Proof. apply handleCreateTodo_trimmed. exact whiteSpace_tokens. Qed.

Lemma handleCreateTodo_submits_trimmed_text_witness :
  InsertTodo.completed (InsertTodo.mk "Buy milk" (Some false)) = Some false /\
  InsertTodo.text (InsertTodo.mk "Buy milk" (Some false)) <> "" /\
  handleCreateTodo whiteSpace (bytes [227; 128; 128; 32; 194; 160]%nat) = None.
Proof.
  destruct (proj2 (handleCreateTodo_submits_trimmed_text example_input)
              (InsertTodo.mk "Buy milk" (Some false)) eq_refl)
    as (Hc & Hne & _).
  split; [exact Hc|]. split; [exact Hne|].
  apply (proj1 (handleCreateTodo_submits_trimmed_text
                  (bytes [227; 128; 128; 32; 194; 160]%nat))).
  change (WhiteSpaceOnly whiteSpace
            (bytes [227; 128; 128]%nat
             ++ (bytes [32]%nat ++ (bytes [194; 160]%nat ++ "")))).
  constructor; [reflexivity|].
  constructor; [reflexivity|].
  constructor; [reflexivity | constructor].
Defined.

(** X18.  With strings and white space as in X17: [handleSaveEdit]
    submits nothing exactly when the edited text is empty or white space
    only, or no Task is being edited ([editingId] null or empty).  When it
    submits, the update is for the Task being edited and carries only a
    [text], which is the input without the white space around it (not
    empty, no white space character at its start or end, the input being
    that text between two runs of white space); applied by [updateTodo]
    to an existing Task, it changes the [text] to that and nothing else. *)
Theorem handleSaveEdit_submits_trimmed_text
    (editText : string) (editingId : option string) :
  (handleSaveEdit whiteSpace editText editingId = None <->
   WhiteSpaceOnly whiteSpace editText \/
   editingId = None \/ editingId = Some "") /\
  (forall id updates,
     handleSaveEdit whiteSpace editText editingId = Some (id, updates) ->
     editingId = Some id /\
     updates = PartialInsertTodo.mk (Some (trim whiteSpace editText)) None /\
     trim whiteSpace editText <> "" /\
     (forall t rest, trim whiteSpace editText = t ++ rest ->
                     whiteSpace t = true -> False) /\
     (forall rest t, trim whiteSpace editText = rest ++ t ->
                     whiteSpace t = true -> False) /\
     (exists pre post,
        editText = pre ++ trim whiteSpace editText ++ post /\
        WhiteSpaceOnly whiteSpace pre /\ WhiteSpaceOnly whiteSpace post) /\
     (forall s existing,
        getTodo id s = Some existing ->
        fst (updateTodo id updates s)
        = Some {| Todo.id := Todo.id existing;
                  Todo.text := trim whiteSpace editText;
                  Todo.completed := Todo.completed existing;
                  Todo.createdAt := Todo.createdAt existing |})).
Proof. apply handleSaveEdit_trimmed. exact whiteSpace_tokens. Qed.

Lemma handleSaveEdit_submits_trimmed_text_witness :
  fst (updateTodo "u" (PartialInsertTodo.mk (Some "Buy milk") None)
         example_created)
  = Some {| Todo.id := "u"; Todo.text := "Buy milk"; Todo.completed := None;
            Todo.createdAt := 1700000000000 |}.
Proof.
  destruct (proj2 (handleSaveEdit_submits_trimmed_text
                     example_input (Some "u"))
              "u" (PartialInsertTodo.mk (Some "Buy milk") None) eq_refl)
    as (_ & _ & _ & _ & _ & _ & Hupd).
  exact (Hupd example_created
           {| Todo.id := "u"; Todo.text := "Buy milk"; Todo.completed := None;
              Todo.createdAt := 1700000000000 |} eq_refl).
Defined.

Lemma parse_insert_ok o t c :
  property "text" o = Some (JString t) ->
  property "completed" o = option_map JBool c ->
  parse insertTodoSchema (JObject o) = ParseOk (InsertTodo.mk t c).
Proof.
  intros Ht Hc. unfold parse, insertTodoSchema, z_object2. simpl.
  rewrite Ht, Hc. destruct c; reflexivity.
Qed.

(** X19.  What the form submits is accepted by the server: when
    [handleCreateTodo] submits data, a [POST /api/todos] whose body is an
    object carrying that [text] and that [completed] is answered 201, and
    the Task created and stored has a non-empty [text] and [completed]
    equal to [false]. *)
Theorem form_submission_is_created
    (randomUUID : nat -> string) (Date_now : nat -> Z)
    (isWhiteSpace : string -> bool)
    (newTodoText : string) (data : InsertTodo.t)
    (o : list (string * json)) (s : MemStorage) :
  handleCreateTodo isWhiteSpace newTodoText = Some data ->
  property "text" o = Some (JString (InsertTodo.text data)) ->
  property "completed" o = option_map JBool (InsertTodo.completed data) ->
  exists created,
    response (post_todos randomUUID Date_now (JObject o) s)
    = mkResponse 201 (JsonTodo created) /\
    Todo.text created <> "" /\
    Todo.completed created = Some false /\
    getTodo (Todo.id created)
      (storage (post_todos randomUUID Date_now (JObject o) s))
    = Some created.
Proof.
  intros Hsubmit Ht Hc. unfold post_todos.
  destruct data as [t c]. simpl in Ht, Hc.
  rewrite (parse_insert_ok _ _ Ht Hc).
  unfold handleCreateTodo in Hsubmit.
  destruct (String.eqb_spec (trim isWhiteSpace newTodoText) "") as [E|Hne];
    [discriminate|].
  injection Hsubmit as <- <-.
  unfold createTodo. cbn. eexists. split; [reflexivity|].
  cbn. repeat split; [exact Hne|].
  unfold getTodo. cbn. apply JsMapFacts.get_set_eq.
Qed.

Lemma form_submission_is_created_witness :
  exists created,
    response (post_todos example_uuid example_clock
                (JObject [("text", JString "Buy milk");
                          ("completed", JBool false)]) newMemStorage)
    = mkResponse 201 (JsonTodo created) /\
    Todo.text created <> "" /\
    Todo.completed created = Some false.
Proof.
  destruct (@form_submission_is_created example_uuid example_clock
              whiteSpace example_input
              (InsertTodo.mk "Buy milk" (Some false))
              [("text", JString "Buy milk"); ("completed", JBool false)]
              newMemStorage eq_refl eq_refl eq_refl)
    as [created (Hr & Ht & Hc & _)].
  exists created. repeat split; assumption.
Defined.

(** X20.  Toggling a Task that the store holds sets [completed] to the
    opposite of what the page shows for it (an absent [completed] shows as
    not done, so the first toggle makes it [true]) and changes nothing
    else; toggling the result again gives a Task whose [completed] is the
    boolean the page showed at the start. *)
Theorem toggle_flips_completion (s : MemStorage) (todo : Todo.t) :
  getTodo (Todo.id todo) s = Some todo ->
  let once := updateTodo (fst (handleToggleComplete todo))
                (snd (handleToggleComplete todo)) s in
  let toggled :=
    {| Todo.id := Todo.id todo; Todo.text := Todo.text todo;
       Todo.completed := Some (negb (truthy (Todo.completed todo)));
       Todo.createdAt := Todo.createdAt todo |} in
  fst once = Some toggled /\
  fst (updateTodo (fst (handleToggleComplete toggled))
         (snd (handleToggleComplete toggled)) (snd once))
  = Some {| Todo.id := Todo.id todo; Todo.text := Todo.text todo;
            Todo.completed := Some (truthy (Todo.completed todo));
            Todo.createdAt := Todo.createdAt todo |}.
Proof.
  unfold getTodo, handleToggleComplete, updateTodo. cbn [fst snd Todo.id].
  intros ->. cbn [fst snd todos]. split; [reflexivity|].
  rewrite JsMapFacts.get_set_eq. cbn.
  now destruct (Todo.completed todo) as [[|]|].
Qed.

Lemma toggle_flips_completion_witness :
  fst (updateTodo (fst (handleToggleComplete (example_task "b" 20)))
         (snd (handleToggleComplete (example_task "b" 20))) example_store)
  = Some {| Todo.id := "b"; Todo.text := "task"; Todo.completed := Some true;
            Todo.createdAt := 20 |}.
Proof.
  apply (proj1 (@toggle_flips_completion example_store
                  (example_task "b" 20) eq_refl)).
Defined.

(** X21.  [formatDate] goes by elapsed time, not by calendar day: it shows
    the time of day exactly when the date is at most 24 hours old (and not
    in the future), "Yesterday" exactly when it is between 24 and 48 hours
    old, and the date otherwise, in particular for a date in the future. *)
Theorem formatDate_by_elapsed_time (now date : Z) :
  (formatDate now date = LocaleTimeString date <->
   0 <= now - date < 86400000) /\
  (formatDate now date = Yesterday <->
   86400000 <= now - date < 172800000) /\
  (formatDate now date = LocaleDateString date <->
   now - date < 0 \/ 172800000 <= now - date).
Proof.
  unfold formatDate. cbv zeta.
  change (1000 * 60 * 60 * 24) with 86400000.
  pose proof (Z.div_mod (now - date) 86400000 ltac:(lia)) as Hdm.
  pose proof (Z.mod_pos_bound (now - date) 86400000 ltac:(lia)) as Hb.
  destruct (Z.eqb_spec ((now - date) / 86400000) 0) as [E0|N0];
    [|destruct (Z.eqb_spec ((now - date) / 86400000) 1) as [E1|N1]];
    repeat split; try discriminate; try reflexivity; intros; lia.
Qed.
